(** * Tool panel and search page: a shallow embedding

    Two React client components are modelled here:

    - [ToolManagement] (the tool-synchronisation panel): the remote
      [tools/list] fetch, the automatic save through the [create] mutation,
      the mutation callbacks, the mount effect with its one-shot ref and the
      counts shown in the header;
    - [SearchContent] (the search page): the URL parameters, the query
      function with its non-OK branch, the debounce effect with its timer
      and cleanup, [handlePageChange] and the derived pagination numbers.

    Conventions of the embedding.

    - JavaScript numbers that the code only uses as integers (offsets, page
      numbers, counts, HTTP statuses) are [Z]; [NaN], which [parseInt] can
      return, is a constructor of its own.  The one division of the code,
      [x / PAGE_SIZE], is taken in the rationals before [Math.floor] or
      [Math.ceil] is applied.  This is what JavaScript computes as long as
      the integers are safe integers ([Js.safeInteger]: below 2^53 in
      absolute value), where its arithmetic, its decimal printing and
      [parseInt] are exact; the rounding of larger numbers and their
      exponent notation are left out, and every statement about a number
      that need not be small carries that bound as a hypothesis.
    - Strings are [string]; [===] on strings is [String.eqb].
    - Hooks are given their operational reading: a state cell is a field of
      a record, an effect is a function run after a render whose dependency
      changed, a cleanup is run before the next run of its effect.
    - Calls into the environment ([toast], [console.error], [makeRequest],
      [mutate], [router.push], [setTimeout]) are recorded in a log.
    - [fetchMCPTools] is given twice: as one computation over the
      [makeRequest] it is handed, and cut at its [await] into the part run
      by the call and the part run when the request settles, which is what
      the events of a mounted panel interleave; the two are shown to
      agree.
    - Time is a clock in milliseconds; a timer may fire at any moment from
      its due time on, as long as it has not been cleared.
    - The URLs that the page pushes are kept as a path and a list of
      parameters; module [UrlText] gives their text and the reading of
      parameters from text, and Part III shows that the two agree. *)

From Stdlib Require Import ZArith QArith Qround List String Ascii Bool Lia Arith.
From Stdlib Require Import DecimalString DecimalPos.
Import ListNotations.

Local Open Scope string_scope.
Local Open Scope list_scope.
Local Open Scope Z_scope.

(* ================================================================== *)
(** * Part I: definitions *)
(* ================================================================== *)

(** ** JavaScript values used by the two components *)

Module Js.

(** The result of [parseInt], and the operand of the page arithmetic. *)
Inductive number : Type :=
| NaN : number
| Int : Z -> number.

(** Truthiness of a string: every string but the empty one. *)
Definition truthy (s : string) : bool :=
  match s with
  | EmptyString => false
  | String _ _ => true
  end.

(** [x || d] where [x] is a string, [null] or [undefined]. *)
Definition or_else (x : option string) (d : string) : string :=
  match x with
  | Some s => if truthy s then s else d
  | None => d
  end.

(** [x || undefined] where [x] is an optional string. *)
Definition or_undefined (x : option string) : option string :=
  match x with
  | Some s => if truthy s then Some s else None
  | None => None
  end.

(** A thrown value: an [Error] object with its message, or any other
    value, of which the code only takes [String(value)]. *)
Inductive thrown : Type :=
| Error (message : string)
| Other (asString : string).

(** [Number.MAX_SAFE_INTEGER], and the integers that a JavaScript number
    holds exactly and computes with exactly. *)
Definition MAX_SAFE_INTEGER : Z := 2 ^ 53 - 1.

Definition safeInteger (z : Z) : Prop :=
  - MAX_SAFE_INTEGER <= z <= MAX_SAFE_INTEGER.

(** [n.toString()] and [`${n}`] for a safe integer [n]: its decimal
    digits.  (From 2^53 on JavaScript prints the digits of a rounded
    number, and from 10^21 on an exponent; neither is modelled.) *)
Definition toString (z : Z) : string :=
  NilZero.string_of_int (Z.to_int z).

(** *** [parseInt(s)] without a radix argument *)

(** White space that [parseInt] skips: the ASCII part of it.  (The white
    space beyond ASCII, such as U+00A0, is not modelled: the text is taken
    not to start with a byte above 127.) *)
Definition isWhiteSpace (c : ascii) : bool :=
  match nat_of_ascii c with
  | 9%nat | 10%nat | 11%nat | 12%nat | 13%nat | 32%nat => true
  | _ => false
  end.

Fixpoint trimStart (s : string) : string :=
  match s with
  | String c s' => if isWhiteSpace c then trimStart s' else s
  | EmptyString => EmptyString
  end.

(** The value of a digit in radix [r], if the character is one. *)
Definition digitValue (r : Z) (c : ascii) : option Z :=
  let n := Z.of_nat (nat_of_ascii c) in
  let v :=
    if (48 <=? n) && (n <=? 57) then Some (n - 48)
    else if (97 <=? n) && (n <=? 122) then Some (n - 87)
    else if (65 <=? n) && (n <=? 90) then Some (n - 55)
    else None in
  match v with
  | Some d => if d <? r then Some d else None
  | None => None
  end.

(** Reads the longest prefix of radix-[r] digits; [acc] is the value read
    so far, [None] while no digit has been seen. *)
Fixpoint scanDigits (r : Z) (s : string) (acc : option Z) : option Z :=
  match s with
  | EmptyString => acc
  | String c s' =>
      match digitValue r c with
      | Some d =>
          scanDigits r s'
            (Some (match acc with Some a => a * r + d | None => d end))
      | None => acc
      end
  end.

(** The sign, and the text after it. *)
Definition stripSign (s : string) : Z * string :=
  match s with
  | String "-" s' => (-1, s')
  | String "+" s' => (1, s')
  | _ => (1, s)
  end.

(** The radix, and the text after a hexadecimal prefix. *)
Definition stripPrefix (s : string) : Z * string :=
  match s with
  | String "0" (String "x" s') => (16, s')
  | String "0" (String "X" s') => (16, s')
  | _ => (10, s)
  end.

(** The value is the integer that the digits denote; it is the number
    [parseInt] returns when that integer is a safe integer (beyond, the
    number returned is rounded). *)
Definition parseInt (input : string) : number :=
  let s := trimStart input in
  let '(sign, s) := stripSign s in
  let '(radix, s) := stripPrefix s in
  match scanDigits radix s None with
  | None => NaN
  | Some m => Int (sign * m)
  end.

(** The number that the decimal digits [d] denote when [acc] has been
    read before them; it is what [scanDigits] computes on the text of
    [d]. *)
Fixpoint uintValue (d : Decimal.uint) (acc : Z) : Z :=
  match d with
  | Decimal.Nil => acc
  | Decimal.D0 d' => uintValue d' (acc * 10 + 0)
  | Decimal.D1 d' => uintValue d' (acc * 10 + 1)
  | Decimal.D2 d' => uintValue d' (acc * 10 + 2)
  | Decimal.D3 d' => uintValue d' (acc * 10 + 3)
  | Decimal.D4 d' => uintValue d' (acc * 10 + 4)
  | Decimal.D5 d' => uintValue d' (acc * 10 + 5)
  | Decimal.D6 d' => uintValue d' (acc * 10 + 6)
  | Decimal.D7 d' => uintValue d' (acc * 10 + 7)
  | Decimal.D8 d' => uintValue d' (acc * 10 + 8)
  | Decimal.D9 d' => uintValue d' (acc * 10 + 9)
  end.

(** [Math.floor(x / d)] and [Math.ceil(x / d)], the division being the
    one of the rationals. *)
Definition floorDiv (x d : Z) : Z := Qfloor (inject_Z x / inject_Z d).
Definition ceilDiv (x d : Z) : Z := Qceiling (inject_Z x / inject_Z d).

(** A number that is [NaN] or a safe integer. *)
Definition safeNumber (x : number) : Prop :=
  match x with
  | NaN => True
  | Int z => safeInteger z
  end.

(** Arithmetic with [NaN]: every operation of the code propagates it. *)
Definition lift (f : Z -> Z) (x : number) : number :=
  match x with
  | NaN => NaN
  | Int z => Int (f z)
  end.

End Js.

(** ** [URLSearchParams]: an ordered list of name/value pairs *)

Module URLSearchParams.

Definition t : Type := list (string * string).

(** [new URLSearchParams()] *)
Definition empty : t := [].

(** [new URLSearchParams(init)] copies [init]. *)
Definition copy (init : t) : t := init.

(** [get(name)]: the value of the first pair named [name], or [null]. *)
Fixpoint get (name : string) (p : t) : option string :=
  match p with
  | [] => None
  | (k, v) :: p' => if String.eqb k name then Some v else get name p'
  end.

Definition delete (name : string) (p : t) : t :=
  filter (fun kv => negb (String.eqb (fst kv) name)) p.

(** [set(name, value)]: the first pair named [name] takes the value and
    the other pairs of that name are removed; without such a pair the new
    one is appended. *)
Fixpoint set (name value : string) (p : t) : t :=
  match p with
  | [] => [(name, value)]
  | (k, v) :: p' =>
      if String.eqb k name then (name, value) :: delete name p'
      else (k, v) :: set name value p'
  end.

End URLSearchParams.

(** ** The tool panel ([ToolManagement]) *)

Module ToolManagement.

(** *** Data *)

(** A value of type [unknown] in a schema's [properties]: the panel
    never inspects it, its JSON text stands for it. *)
Definition unknown : Type := string.

(** [inputSchema]; its [type] field is the constant ["object"]. *)
Record InputSchema : Type := {
  properties : option (list (string * unknown));
  required : option (list string)
}.

(** [MCPTool].  The interface declares [inputSchema] as present; the code
    still guards its use with [||], so the field is optional here. *)
Record MCPTool : Type := {
  name : string;
  description : option string;
  inputSchema : option InputSchema
}.

(** [ToolsListResponse]; the code tests [response?.tools], so both the
    response and its [tools] field may be absent. *)
Record ToolsListResponse : Type := {
  tools : option (list MCPTool)
}.

(** An element of [toolsToSave], the argument of the create mutation. *)
Record ToolToSave : Type := {
  save_name : string;
  save_description : option string;
  save_inputSchema : InputSchema
}.

(** Modelled from the spec: the stored [Tool] type is declared in the
    package [@repo/zod-types], outside the panel's file; the spec gives a
    tool a name, an optional description and an input schema.  The panel
    reads its [name] only. *)
Record Tool : Type := {
  tool_name : string;
  tool_description : option string;
  tool_inputSchema : option InputSchema
}.

(** The answer of [getByMcpServerUuid.useQuery]. *)
Record DbToolsResponse : Type := {
  db_success : bool;
  db_data : list Tool
}.

(** The answer of the create mutation. *)
Record CreateResponse : Type := {
  success : bool;
  error : option string
}.

(** The first argument of [makeRequest] ([params] is the empty object)
    and its options. *)
Record ClientRequest : Type := { method : string }.
Record RequestOptions : Type := { suppressToast : bool }.

(** *** Calls into the environment *)

Inductive action : Type :=
| Request (request : ClientRequest) (options : RequestOptions)
| Mutate (mcpServerUuid : string) (toolsToSave : list ToolToSave)
| ToastSuccess (message : string)
| ToastInfo (message : string)
| ToastError (message : string) (description : option string)
| ConsoleError (label : string) (e : Js.thrown)
| Invalidate (mcpServerUuid : string)
| RefetchDbTools.

(** *** Component state *)

Record World : Type := {
  mcpTools : list MCPTool;          (* useState<MCPTool[]>([]) *)
  loading : bool;                   (* useState(false) *)
  hasInitiallyFetched : bool;       (* useRef(false) *)
  log : list action                 (* calls made so far, oldest first *)
}.

Definition initial : World :=
  {| mcpTools := []; loading := false; hasInitiallyFetched := false;
     log := [] |}.

(** *** Computations that change the state, call out, and may throw *)

Inductive completion (A : Type) : Type :=
| Normal (a : A)
| Throw (e : Js.thrown).
Arguments Normal {A} a.
Arguments Throw {A} e.

Definition M (A : Type) : Type := World -> completion A * World.

Definition ret {A} (a : A) : M A := fun w => (Normal a, w).

Definition bind {A B} (c : M A) (k : A -> M B) : M B :=
  fun w =>
    match c w with
    | (Normal a, w') => k a w'
    | (Throw e, w') => (Throw e, w')
    end.

Definition throw {A} (e : Js.thrown) : M A := fun w => (Throw e, w).

(** [try { body } catch (error) { handler } finally { finalizer }] *)
Definition try_catch_finally {A}
    (body : M A) (handler : Js.thrown -> M A) (finalizer : M unit) : M A :=
  fun w =>
    let '(c, w1) :=
      match body w with
      | (Normal a, w') => (Normal a, w')
      | (Throw e, w') => handler e w'
      end in
    match finalizer w1 with
    | (Normal _, w2) => (c, w2)
    | (Throw e, w2) => (Throw e, w2)
    end.

Declare Scope panel_scope.
Delimit Scope panel_scope with panel.
Notation "x <- c ;; k" := (bind c (fun x => k))
  (at level 61, c at next level, right associativity) : panel_scope.
Notation "c ;; k" := (bind c (fun _ => k))
  (at level 61, right associativity) : panel_scope.
Local Open Scope panel_scope.

Definition call (a : action) : M unit :=
  fun w =>
    (Normal tt,
     {| mcpTools := mcpTools w; loading := loading w;
        hasInitiallyFetched := hasInitiallyFetched w;
        log := log w ++ [a] |}).

Definition setMcpTools (l : list MCPTool) : M unit :=
  fun w =>
    (Normal tt,
     {| mcpTools := l; loading := loading w;
        hasInitiallyFetched := hasInitiallyFetched w; log := log w |}).

Definition setLoading (b : bool) : M unit :=
  fun w =>
    (Normal tt,
     {| mcpTools := mcpTools w; loading := b;
        hasInitiallyFetched := hasInitiallyFetched w; log := log w |}).

Definition setHasInitiallyFetched (b : bool) : M unit :=
  fun w =>
    (Normal tt,
     {| mcpTools := mcpTools w; loading := loading w;
        hasInitiallyFetched := b; log := log w |}).

Definition getMcpTools : M (list MCPTool) := fun w => (Normal (mcpTools w), w).
Definition getHasInitiallyFetched : M bool :=
  fun w => (Normal (hasInitiallyFetched w), w).

(** *** Source line 61: the stored tools *)

Definition dbTools (dbToolsResponse : option DbToolsResponse) : list Tool :=
  match dbToolsResponse with
  | Some r => if db_success r then db_data r else []
  | None => []
  end.

(** *** Source lines 64-82: the callbacks of the create mutation

    [onSuccess] reads [mcpTools]: the list of the render that built the
    callback.  [onSuccessOf] is the callback of a render that displayed
    [captured]; [onSuccess] is the callback of the render of the present
    state. *)

Definition onSuccessOf (captured : list MCPTool) (mcpServerUuid : string)
    (response : CreateResponse) : M unit :=
  if success response then
    let foundCount := Z.of_nat (List.length captured) in
    call (ToastSuccess
            ("Found " ++ Js.toString foundCount ++ " tools from MCP server")) ;;
    call (Invalidate mcpServerUuid) ;;
    call RefetchDbTools
  else
    call (ToastError (Js.or_else (error response) "Failed to save tools") None).

Definition onSuccess (mcpServerUuid : string) (response : CreateResponse)
  : M unit :=
  if success response then
    tools <- getMcpTools ;;
    let foundCount := Z.of_nat (List.length tools) in
    call (ToastSuccess
            ("Found " ++ Js.toString foundCount ++ " tools from MCP server")) ;;
    call (Invalidate mcpServerUuid) ;;
    call RefetchDbTools
  else
    call (ToastError (Js.or_else (error response) "Failed to save tools") None).

Definition onError (e : Js.thrown) : M unit :=
  call (ConsoleError "Error saving tools:" e) ;;
  call (ToastError "Failed to save tools"
          (match e with
           | Js.Error message => Some message
           | Js.Other _ => None
           end)).

(** *** Source lines 85-128: [fetchMCPTools] *)

Definition toolToSave (tool : MCPTool) : ToolToSave :=
  {| save_name := name tool;
     save_description := Js.or_undefined (description tool);
     save_inputSchema :=
       match inputSchema tool with
       | Some schema => schema
       | None => {| properties := None; required := None |}
       end |}.

Definition fetchMCPTools
    (mcpServerUuid : string)
    (makeRequest :
       ClientRequest -> RequestOptions -> M (option ToolsListResponse))
  : M unit :=
  setLoading true ;;
  try_catch_finally
    (response <- makeRequest {| method := "tools/list" |}
                             {| suppressToast := true |} ;;
     match match response with Some r => tools r | None => None end with
     | Some response_tools =>
         setMcpTools response_tools ;;
         if (0 <? List.length response_tools)%nat then
           let toolsToSave := map toolToSave response_tools in
           call (Mutate mcpServerUuid toolsToSave)
         else
           call (ToastInfo "No tools found on MCP server")
     | None =>
         setMcpTools [] ;;
         call (ToastInfo "No tools found on MCP server")
     end)
    (fun error =>
       call (ConsoleError "Error fetching MCP tools:" error) ;;
       call (ToastError "Failed to fetch tools from MCP server"
               (Some (match error with
                      | Js.Error message => message
                      | Js.Other asString => asString
                      end))) ;;
       setMcpTools [])
    (setLoading false).

(** *** Source lines 131-136: the mount effect *)

Definition mountEffect (fetchMCPTools : M unit) : M unit :=
  flag <- getHasInitiallyFetched ;;
  if negb flag then
    setHasInitiallyFetched true ;;
    fetchMCPTools
  else ret tt.

(** *** Source lines 139-143: the counts of the header *)

Definition isNew (dbTools : list Tool) (mcpTool : MCPTool) : bool :=
  negb (existsb (fun dbTool => String.eqb (tool_name dbTool) (name mcpTool))
          dbTools).

Definition newTools (mcpTools : list MCPTool) (dbTools : list Tool)
  : list MCPTool :=
  filter (isNew dbTools) mcpTools.

Definition mcpToolCount (mcpTools : list MCPTool) : nat := List.length mcpTools.
Definition dbToolCount (dbTools : list Tool) : nat := List.length dbTools.
Definition newToolsCount (mcpTools : list MCPTool) (dbTools : list Tool)
  : nat :=
  List.length (newTools mcpTools dbTools).

(** What the header shows: the two counts, the "new" badge when the
    count of new tools is positive, whether Refresh is disabled and
    whether the help text is present. *)
Record Header : Type := {
  shown_mcp : nat;
  shown_db : nat;
  shown_new : option nat;
  refresh_disabled : bool;
  help_text : bool
}.

Definition render (w : World) (dbToolsResponse : option DbToolsResponse)
  : Header :=
  let stored := dbTools dbToolsResponse in
  let n := newToolsCount (mcpTools w) stored in
  {| shown_mcp := mcpToolCount (mcpTools w);
     shown_db := dbToolCount stored;
     shown_new := if (0 <? n)%nat then Some n else None;
     refresh_disabled := loading w;
     help_text :=
       negb (loading w)
       && (mcpToolCount (mcpTools w) =? 0)%nat
       && (dbToolCount stored =? 0)%nat |}.

(** *** The environment of the panel *)

(** How a [tools/list] request settles. *)
Inductive outcome : Type :=
| Rejected (e : Js.thrown)
| Resolved (response : option ToolsListResponse).

(** A [makeRequest] that records the request and settles as [o]. *)
Definition makeRequest_settling (o : outcome)
  : ClientRequest -> RequestOptions -> M (option ToolsListResponse) :=
  fun request options =>
    call (Request request options) ;;
    match o with
    | Rejected e => throw e
    | Resolved response => ret response
    end.

(** The [tools/list] requests of a log, and the tool lists handed to the
    create mutation. *)
Definition isRequest (a : action) : bool :=
  match a with Request _ _ => true | _ => false end.

Definition requests (l : list action) : nat :=
  List.length (filter isRequest l).

Fixpoint persisted (l : list action) : list (list ToolToSave) :=
  match l with
  | [] => []
  | Mutate _ toolsToSave :: l' => toolsToSave :: persisted l'
  | _ :: l' => persisted l'
  end.

Definition mutations (l : list action) : nat := List.length (persisted l).

Definition persistedNames (l : list action) : list string :=
  List.concat (map (map save_name) (persisted l)).

(** *** The spec's words, for comparison with the code *)

(** "A tool is new if present in the remote set but absent (by name)
    from the stored set." *)
Definition newByName (remote : list MCPTool) (stored : list Tool)
    (t : MCPTool) : Prop :=
  In t remote /\ ~ In (name t) (map tool_name stored).

(** The number of remote tools whose name does not occur among the names
    of the stored tools. *)
Fixpoint countAbsent (remote : list MCPTool) (stored : list Tool) : nat :=
  match remote with
  | [] => 0%nat
  | t :: remote' =>
      if in_dec string_dec (name t) (map tool_name stored)
      then countAbsent remote' stored
      else S (countAbsent remote' stored)
  end.

(** *** How a fetch ends, by the way its request settles *)

(** The tool list of a settled request, when it has one. *)
Definition toolList (o : outcome) : option (list MCPTool) :=
  match o with
  | Resolved (Some r) => tools r
  | _ => None
  end.

Definition thrownText (e : Js.thrown) : string :=
  match e with
  | Js.Error message => message
  | Js.Other asString => asString
  end.

(** The calls that follow the request. *)
Definition callsAfterRequest (mcpServerUuid : string) (o : outcome)
  : list action :=
  match o with
  | Rejected e =>
      [ConsoleError "Error fetching MCP tools:" e;
       ToastError "Failed to fetch tools from MCP server"
         (Some (thrownText e))]
  | Resolved _ =>
      match toolList o with
      | Some (t :: l) => [Mutate mcpServerUuid (map toolToSave (t :: l))]
      | _ => [ToastInfo "No tools found on MCP server"]
      end
  end.

(** The tool list that is displayed afterwards. *)
Definition toolsAfter (o : outcome) : list MCPTool :=
  match toolList o with
  | Some l => l
  | None => []
  end.

(** *** A mounted panel over time

    [fetchMCPTools] is an [async] function: a call of it runs up to the
    [await] of line 88 and the rest runs when the request has settled,
    with any number of renders, effect runs and clicks in between. *)

(** Source lines 86-95: what a call of [fetchMCPTools] does before it
    waits: the loading flag goes up and the request is made. *)
Definition fetchMCPTools_call : M unit :=
  setLoading true ;;
  call (Request {| method := "tools/list" |} {| suppressToast := true |}).

(** Source lines 97-127: what it does once the request has settled. *)
Definition fetchMCPTools_resume (mcpServerUuid : string) (o : outcome)
  : M unit :=
  try_catch_finally
    (response <- match o with
                 | Rejected e => throw e
                 | Resolved response => ret response
                 end ;;
     match match response with Some r => tools r | None => None end with
     | Some response_tools =>
         setMcpTools response_tools ;;
         if (0 <? List.length response_tools)%nat then
           let toolsToSave := map toolToSave response_tools in
           call (Mutate mcpServerUuid toolsToSave)
         else
           call (ToastInfo "No tools found on MCP server")
     | None =>
         setMcpTools [] ;;
         call (ToastInfo "No tools found on MCP server")
     end)
    (fun error =>
       call (ConsoleError "Error fetching MCP tools:" error) ;;
       call (ToastError "Failed to fetch tools from MCP server"
               (Some (match error with
                      | Js.Error message => message
                      | Js.Other asString => asString
                      end))) ;;
       setMcpTools [])
    (setLoading false).

(** A mounted panel: the state of the component, the requests made and
    not yet settled, and the saves asked and not yet answered. *)
Record Panel : Type := {
  world : World;
  awaiting : nat;
  saving : nat
}.

Definition mounted : Panel :=
  {| world := initial; awaiting := 0; saving := 0 |}.

(** What can happen to a mounted panel. *)
Inductive event : Type :=
| EffectRun                       (* React runs the mount effect *)
| RefreshClick                    (* [fetchMCPTools] is called by the
                                     Refresh button or by the table *)
| RequestSettled (o : outcome)    (* a request made earlier settles *)
| MutationSucceeded (captured : list MCPTool) (r : CreateResponse)
                                  (* a save is answered; [captured] is the
                                     list of the render whose callback runs *)
| MutationFailed (e : Js.thrown). (* a save fails *)

(** The panel after a computation of the component: the requests and the
    saves that the computation has logged are now outstanding. *)
Definition after (c : M unit) (p : Panel) : Panel :=
  let w := snd (c (world p)) in
  {| world := w;
     awaiting :=
       awaiting p + (requests (log w) - requests (log (world p)));
     saving :=
       saving p + (mutations (log w) - mutations (log (world p))) |}.

(** An event that cannot happen gives [None]: a settlement with no
    request outstanding, an answer with no save outstanding.  (The Refresh
    button is disabled while loading; the table is handed the same
    function without that guard, so a call of it is allowed at any
    time.) *)
Definition step (mcpServerUuid : string) (p : Panel) (ev : event)
  : option Panel :=
  match ev with
  | EffectRun => Some (after (mountEffect fetchMCPTools_call) p)
  | RefreshClick => Some (after fetchMCPTools_call p)
  | RequestSettled o =>
      match awaiting p with
      | O => None
      | S n =>
          Some (after (fetchMCPTools_resume mcpServerUuid o)
                  {| world := world p; awaiting := n; saving := saving p |})
      end
  | MutationSucceeded captured r =>
      match saving p with
      | O => None
      | S n =>
          Some (after (onSuccessOf captured mcpServerUuid r)
                  {| world := world p; awaiting := awaiting p; saving := n |})
      end
  | MutationFailed e =>
      match saving p with
      | O => None
      | S n =>
          Some (after (onError e)
                  {| world := world p; awaiting := awaiting p; saving := n |})
      end
  end.

Fixpoint run (mcpServerUuid : string) (p : Panel) (evs : list event)
  : option Panel :=
  match evs with
  | [] => Some p
  | ev :: evs' =>
      match step mcpServerUuid p ev with
      | Some p' => run mcpServerUuid p' evs'
      | None => None
      end
  end.

Definition isEffectRun (ev : event) : bool :=
  match ev with EffectRun => true | _ => false end.

Definition isRefreshClick (ev : event) : bool :=
  match ev with RefreshClick => true | _ => false end.

Definition refreshClicks (evs : list event) : nat :=
  List.length (filter isRefreshClick evs).

End ToolManagement.

(** ** The search page ([SearchContent]) *)

Module Search.

(** Source line 15. *)
Definition PAGE_SIZE : Z := 6.

(** The delay handed to [setTimeout] at source line 50, in ms. *)
Definition DEBOUNCE_MS : nat := 500.

(** Modelled from the spec: [PaginatedSearchResult] is declared in
    [@/types/search], outside the page's file; the spec gives a result
    page a total count and an ordered sequence of result items.  An item
    is opaque to the page, its identifier stands for it. *)
Definition SearchItem : Type := string.

Record PaginatedSearchResult : Type := {
  total : Z;
  results : option (list SearchItem)
}.

(** The target of a [router.push]: the path and the parameters that the
    code serialises after the question mark.  The browser's parsing of
    that text gives the parameters back, so the text itself is left
    out. *)
Record Href : Type := {
  pathname : string;
  search : URLSearchParams.t
}.

(** *** Source lines 20-21: what is read off the URL *)

Definition query (searchParams : URLSearchParams.t) : string :=
  Js.or_else (URLSearchParams.get "query" searchParams) "".

Definition offset (searchParams : URLSearchParams.t) : Js.number :=
  Js.parseInt (Js.or_else (URLSearchParams.get "offset" searchParams) "0").

(** *** Source lines 26-37: the query function *)

(** The answer of [fetch]; [json] is how [res.json()] settles. *)
Record Response : Type := {
  ok : bool;
  status : Z;
  statusText : string;
  text : string;
  json : Js.thrown + PaginatedSearchResult
}.

(** [fetched] is how the [fetch] call settles. *)
Definition queryFn (fetched : Js.thrown + Response)
  : Js.thrown + PaginatedSearchResult :=
  match fetched with
  | inl e => inl e
  | inr res =>
      if negb (ok res) then
        let errorText := text res in
        inl (Js.Error
               ("Failed to fetch: " ++ Js.toString (status res) ++ " "
                ++ statusText res ++ " - " ++ errorText)%string)
      else json res
  end.

(** *** Source lines 43-49: the body of the debounce timer *)

Definition timerBody (searchQuery query : string) : option Href :=
  if negb (String.eqb searchQuery query) then
    let params := URLSearchParams.empty in
    let params :=
      if Js.truthy searchQuery
      then URLSearchParams.set "query" searchQuery params
      else params in
    let params := URLSearchParams.set "offset" "0" params in
    Some {| pathname := "/search"; search := params |}
  else None.

(** *** Source lines 55-59: [handlePageChange] *)

Definition handlePageChange (searchParams : URLSearchParams.t) (page : Z)
  : Href :=
  let params := URLSearchParams.copy searchParams in
  let params :=
    URLSearchParams.set "offset" (Js.toString ((page - 1) * PAGE_SIZE))
      params in
  {| pathname := "/search"; search := params |}.

(** *** Source lines 83-84: the numbers handed to [PaginationUi]

    Exact arithmetic: what the code computes when the offset and the total
    are safe integers. *)

Definition currentPage (offset : Js.number) : Js.number :=
  Js.lift (fun o => Js.floorDiv o PAGE_SIZE + 1) offset.

Definition totalPages (total : Z) : Z := Js.ceilDiv total PAGE_SIZE.

(** *** Source lines 61-89: what is rendered *)

Record Pagination : Type := {
  shown_currentPage : Js.number;
  shown_totalPages : Z
}.

Inductive View : Type :=
| SearchSkeleton
| Content (inputValue : string)
          (errorLine : option string)
          (cardGrid : option (list SearchItem))
          (paginationUi : option Pagination).

Definition render
    (searchParams : URLSearchParams.t) (searchQuery : string)
    (isLoading : bool) (error : option Js.thrown)
    (data : option PaginatedSearchResult) : View :=
  if isLoading then SearchSkeleton
  else
    Content searchQuery
      (match error with
       | Some (Js.Error message) => Some ("Error: " ++ message)%string
       | Some (Js.Other _) => Some "Error: "
       | None => None
       end)
      (match data with
       | Some d => results d
       | None => None
       end)
      (match data with
       | Some d =>
           Some {| shown_currentPage := currentPage (offset searchParams);
                   shown_totalPages := totalPages (total d) |}
       | None => None
       end).

(** *** Source lines 42-53: the debounce effect, with the browser's timers *)

(** A pending timer: its handle, the time at which it is due, and the
    [searchQuery] and [query] its callback closed over. *)
Record Timer : Type := {
  timer_id : nat;
  due : nat;
  closed_searchQuery : string;
  closed_query : string
}.

Record State : Type := {
  now : nat;                         (* the clock, in ms *)
  searchParams : URLSearchParams.t;  (* useSearchParams() *)
  searchQuery : string;              (* useState(query) *)
  timers : list Timer;               (* timers set and neither fired nor cleared *)
  nextTimer : nat;                   (* the next handle [setTimeout] returns *)
  cleanup : option nat;              (* the cleanup of the last effect run *)
  pushed : list Href                 (* [router.push] calls, latest first *)
}.

Definition setTimeout (searchQuery query : string) (delay : nat) (st : State)
  : nat * State :=
  (nextTimer st,
   {| now := now st; searchParams := searchParams st;
      searchQuery := Search.searchQuery st;
      timers :=
        {| timer_id := nextTimer st; due := now st + delay;
           closed_searchQuery := searchQuery; closed_query := query |}
        :: timers st;
      nextTimer := S (nextTimer st);
      cleanup := cleanup st; pushed := pushed st |}).

Definition clearTimeout (timer : nat) (st : State) : State :=
  {| now := now st; searchParams := searchParams st;
     searchQuery := searchQuery st;
     timers := filter (fun t => negb (timer_id t =? timer)%nat) (timers st);
     nextTimer := nextTimer st;
     cleanup := cleanup st; pushed := pushed st |}.

(** One run of the effect: the cleanup of the previous run first, then
    the body, whose returned cleanup is kept for the next run. *)
Definition runEffect (st : State) : State :=
  let st :=
    match cleanup st with
    | Some timer => clearTimeout timer st
    | None => st
    end in
  let '(timer, st) :=
    setTimeout (searchQuery st) (query (searchParams st)) DEBOUNCE_MS st in
  {| now := now st; searchParams := searchParams st;
     searchQuery := searchQuery st; timers := timers st;
     nextTimer := nextTimer st;
     cleanup := Some timer; pushed := pushed st |}.

(** The component when it mounts at time [t0] on a URL: [searchQuery]
    starts as the URL's query, and the effect runs once. *)
Definition mount (t0 : nat) (url : URLSearchParams.t) : State :=
  runEffect
    {| now := t0; searchParams := url; searchQuery := query url;
       timers := []; nextTimer := 0%nat; cleanup := None; pushed := [] |}.

Inductive event : Type :=
| Change (value : string)            (* onChange of the input *)
| Navigate (url : URLSearchParams.t) (* the URL changes *)
| Elapse (ms : nat)                  (* time passes *)
| Fire (timer : nat).                (* the browser runs a timer that is due *)

Definition findTimer (timer : nat) (st : State) : option Timer :=
  find (fun t => (timer_id t =? timer)%nat) (timers st).

(** The effect depends on [searchQuery], [query] and [router]; it is run
    again after a render in which one of the first two has changed. *)
Definition step (st : State) (ev : event) : option State :=
  match ev with
  | Change value =>
      if String.eqb value (searchQuery st) then Some st
      else
        Some (runEffect
                {| now := now st; searchParams := searchParams st;
                   searchQuery := value; timers := timers st;
                   nextTimer := nextTimer st;
                   cleanup := cleanup st; pushed := pushed st |})
  | Navigate url =>
      let st' :=
        {| now := now st; searchParams := url;
           searchQuery := searchQuery st; timers := timers st;
           nextTimer := nextTimer st;
           cleanup := cleanup st; pushed := pushed st |} in
      if String.eqb (query url) (query (searchParams st)) then Some st'
      else Some (runEffect st')
  | Elapse ms =>
      Some {| now := now st + ms; searchParams := searchParams st;
              searchQuery := searchQuery st; timers := timers st;
              nextTimer := nextTimer st;
              cleanup := cleanup st; pushed := pushed st |}
  | Fire timer =>
      match findTimer timer st with
      | Some t =>
          if (due t <=? now st)%nat then
            let st := clearTimeout timer st in
            Some {| now := now st; searchParams := searchParams st;
                    searchQuery := searchQuery st; timers := timers st;
                    nextTimer := nextTimer st; cleanup := cleanup st;
                    pushed :=
                      match timerBody (closed_searchQuery t) (closed_query t)
                      with
                      | Some href => href :: pushed st
                      | None => pushed st
                      end |}
          else None
      | None => None
      end
  end.

Fixpoint run (st : State) (evs : list event) : option State :=
  match evs with
  | [] => Some st
  | ev :: evs' =>
      match step st ev with
      | Some st' => run st' evs'
      | None => None
      end
  end.

(** *** Invariants of the debounce effect *)

(** Every pending timer is the one that the cleanup of the last effect
    run will clear. *)
Definition clearedByCleanup (st : State) : Prop :=
  forall t, In t (timers st) -> cleanup st = Some (timer_id t).

(** There is at most one pending timer: the one set by the last effect
    run, whose callback closed over the present [searchQuery] and
    [query]; and its handle has been handed out. *)
Definition currentTimerOnly (st : State) : Prop :=
  forall t, In t (timers st) ->
    timers st = [t]
    /\ cleanup st = Some (timer_id t)
    /\ closed_searchQuery t = searchQuery st
    /\ closed_query t = query (searchParams st)
    /\ (timer_id t < nextTimer st)%nat.

(** Every pending timer is due at [d] or later and has a handle from
    [n] on, and so will every timer set from now on. *)
Definition setSince (d n : nat) (st : State) : Prop :=
  (d <= now st + DEBOUNCE_MS)%nat
  /\ (n <= nextTimer st)%nat
  /\ forall t, In t (timers st) ->
       (d <= due t)%nat /\ (n <= timer_id t)%nat.

(** Events that leave the typed text and the URL's query at [q]: time
    passing, a timer firing, a URL change that keeps the query (a page
    change), and an input event that gives the text [q] again. *)
Definition quiet (q : string) (ev : event) : bool :=
  match ev with
  | Change value => String.eqb value q
  | Navigate url => String.eqb (query url) q
  | Elapse _ => true
  | Fire _ => true
  end.

(** The number of pairs named [name] in a parameter list. *)
Definition occurrences (name : string) (p : URLSearchParams.t) : nat :=
  List.length (filter (fun kv => String.eqb (fst kv) name) p).

End Search.

(** ** The text of URLs

    The page writes parameters into text ([params.toString()],
    [encodeURIComponent]) and reads them back from the URL
    ([useSearchParams()]).  These are the serializer and the parser of
    [application/x-www-form-urlencoded] of the URL Standard and
    [encodeURIComponent] of ECMAScript, on the bytes of the UTF-8 form of
    a string, which is what a [string] holds here. *)

Module UrlText.

Definition hexDigit (n : nat) : ascii :=
  if (n <? 10)%nat then ascii_of_nat (48 + n) else ascii_of_nat (55 + n).

(** A byte as [%XX], with upper-case digits. *)
Definition percentEncodeByte (c : ascii) : string :=
  let n := nat_of_ascii c in
  String "%" (String (hexDigit (n / 16)) (String (hexDigit (n mod 16)) "")).

Definition isAlphanumeric (c : ascii) : bool :=
  let n := nat_of_ascii c in
  ((48 <=? n) && (n <=? 57) || (65 <=? n) && (n <=? 90)
   || (97 <=? n) && (n <=? 122))%nat.

Definition oneOf (chars : string) (c : ascii) : bool :=
  existsb (Ascii.eqb c) (list_ascii_of_string chars).

(** The bytes that the form serializer writes as they are. *)
Definition formSafe (c : ascii) : bool := isAlphanumeric c || oneOf "*-._" c.

(** The bytes that [encodeURIComponent] writes as they are. *)
Definition uriUnreserved (c : ascii) : bool :=
  isAlphanumeric c || oneOf "-_.!~*'()" c.

Definition formChar (c : ascii) : string :=
  if Ascii.eqb c " " then "+"
  else if formSafe c then String c "" else percentEncodeByte c.

Fixpoint formEncode (s : string) : string :=
  match s with
  | EmptyString => EmptyString
  | String c s' => formChar c ++ formEncode s'
  end.

Definition uriChar (c : ascii) : string :=
  if uriUnreserved c then String c "" else percentEncodeByte c.

Fixpoint encodeURIComponent (s : string) : string :=
  match s with
  | EmptyString => EmptyString
  | String c s' => uriChar c ++ encodeURIComponent s'
  end.

(** [params.toString()] *)
Definition serializePair (kv : string * string) : string :=
  formEncode (fst kv) ++ "=" ++ formEncode (snd kv).

Definition serialize (p : URLSearchParams.t) : string :=
  String.concat "&" (map serializePair p).

(** The parser. *)
Definition hexValue (c : ascii) : option nat :=
  let n := nat_of_ascii c in
  if ((48 <=? n) && (n <=? 57))%nat then Some (n - 48)%nat
  else if ((65 <=? n) && (n <=? 70))%nat then Some (n - 55)%nat
  else if ((97 <=? n) && (n <=? 102))%nat then Some (n - 87)%nat
  else None.

Fixpoint percentDecode (s : string) : string :=
  match s with
  | EmptyString => EmptyString
  | String c rest =>
      if Ascii.eqb c "%" then
        match rest with
        | String h (String l rest') =>
            match hexValue h, hexValue l with
            | Some a, Some b =>
                String (ascii_of_nat (16 * a + b)) (percentDecode rest')
            | _, _ => String c (percentDecode rest)
            end
        | _ => String c (percentDecode rest)
        end
      else String c (percentDecode rest)
  end.

Fixpoint plusToSpace (s : string) : string :=
  match s with
  | EmptyString => EmptyString
  | String c s' => String (if Ascii.eqb c "+" then " "%char else c) (plusToSpace s')
  end.

(** The pieces of [s] between the occurrences of [sep]. *)
Fixpoint splitOn (sep : ascii) (s : string) : list string :=
  match s with
  | EmptyString => [EmptyString]
  | String c s' =>
      if Ascii.eqb c sep then EmptyString :: splitOn sep s'
      else
        match splitOn sep s' with
        | piece :: pieces => String c piece :: pieces
        | [] => [String c EmptyString]
        end
  end.

(** [s] before its first [sep], and what follows it if there is one. *)
Fixpoint cutAt (sep : ascii) (s : string) : string * option string :=
  match s with
  | EmptyString => (EmptyString, None)
  | String c s' =>
      if Ascii.eqb c sep then (EmptyString, Some s')
      else let '(before, rest) := cutAt sep s' in (String c before, rest)
  end.

Definition parsePiece (piece : string) : list (string * string) :=
  match piece with
  | EmptyString => []
  | _ =>
      let '(name, value) := cutAt "=" piece in
      let value := match value with Some v => v | None => EmptyString end in
      [(percentDecode (plusToSpace name), percentDecode (plusToSpace value))]
  end.

Definition parse (input : string) : URLSearchParams.t :=
  flat_map parsePiece (splitOn "&" input).

(** The parameters of a URL given as text: those of its query, the text
    after the first question mark. *)
Definition searchParamsOf (url : string) : URLSearchParams.t :=
  match snd (cutAt "?" url) with
  | Some query => parse query
  | None => []
  end.

(** Source lines 48 and 58: the argument of [router.push]. *)
Definition hrefText (href : Search.Href) : string :=
  Search.pathname href ++ "?" ++ serialize (Search.search href).

(** [`${offset}`] *)
Definition numberText (x : Js.number) : string :=
  match x with
  | Js.NaN => "NaN"
  | Js.Int z => Js.toString z
  end.

(** Source lines 27-29: the URL of the search request. *)
Definition requestUrl (query : string) (offset : Js.number) : string :=
  "/service/search?query=" ++ encodeURIComponent query
  ++ "&pageSize=" ++ Js.toString Search.PAGE_SIZE
  ++ "&offset=" ++ numberText offset.

(** Text without [c]. *)
Fixpoint lacks (c : ascii) (s : string) : bool :=
  match s with
  | EmptyString => true
  | String c' s' => negb (Ascii.eqb c' c) && lacks c s'
  end.

(** Text that the parser reads as it is: no plus sign, no percent sign. *)
Definition plain (s : string) : bool := lacks "+" s && lacks "%" s.

End UrlText.

(* ================================================================== *)
(** * Part II: properties *)
(* ================================================================== *)

(** ** Numbers and their decimal text *)

Section JsFacts.

Import Js.

Lemma uintValue_pos (d : Decimal.uint) (acc : positive) :
  uintValue d (Zpos acc) = Zpos (Pos.of_uint_acc d acc).
Proof.
  revert acc; induction d; intro acc; cbn [uintValue Pos.of_uint_acc];
    try reflexivity;
    match goal with
    | |- uintValue _ ?a = _ =>
        match goal with
        | |- _ = Zpos (Pos.of_uint_acc _ ?b) =>
            replace a with (Zpos b) by lia
        end
    end; apply IHd.
Qed.

Lemma uintValue_zero (d : Decimal.uint) :
  uintValue d 0 = Z.of_N (Pos.of_uint d).
Proof.
  induction d; cbn [uintValue Pos.of_uint Z.of_N Z.mul Z.add];
    first [ reflexivity | exact IHd | apply uintValue_pos ].
Qed.

Lemma scanDigits_uint (d : Decimal.uint) (acc : Z) :
  scanDigits 10 (NilEmpty.string_of_uint d) (Some acc)
  = Some (uintValue d acc).
Proof.
  revert acc; induction d; intro acc;
    cbn [NilEmpty.string_of_uint scanDigits uintValue];
    try reflexivity;
    match goal with
    | |- context [digitValue 10 ?c] =>
        let v := eval vm_compute in (digitValue 10 c) in
        change (digitValue 10 c) with v; cbv iota beta
    end; apply IHd.
Qed.

Lemma scanDigits_uint_start (d : Decimal.uint) :
  d <> Decimal.Nil ->
  scanDigits 10 (NilEmpty.string_of_uint d) None = Some (uintValue d 0).
Proof.
  destruct d; [congruence | ..]; intros _;
    cbn [NilEmpty.string_of_uint scanDigits uintValue];
    match goal with
    | |- context [digitValue 10 ?c] =>
        let v := eval vm_compute in (digitValue 10 c) in
        change (digitValue 10 c) with v; cbv iota beta
    end; apply scanDigits_uint.
Qed.

(** The text of decimal digits has no white space, sign or hexadecimal
    prefix in front. *)
Lemma trimStart_uint (d : Decimal.uint) :
  trimStart (NilEmpty.string_of_uint d) = NilEmpty.string_of_uint d.
Proof. destruct d; reflexivity. Qed.

Lemma stripSign_uint (d : Decimal.uint) :
  stripSign (NilEmpty.string_of_uint d) = (1, NilEmpty.string_of_uint d).
Proof. destruct d; reflexivity. Qed.

Lemma stripPrefix_uint (d : Decimal.uint) :
  stripPrefix (NilEmpty.string_of_uint d) = (10, NilEmpty.string_of_uint d).
Proof. destruct d as [|d|d|d|d|d|d|d|d|d|d]; try reflexivity; destruct d; reflexivity. Qed.

(** [parseInt] on the text of a non-empty sequence of decimal digits,
    bare or after a minus sign. *)
Lemma parseInt_uint (d : Decimal.uint) :
  d <> Decimal.Nil ->
  parseInt (NilEmpty.string_of_uint d) = Int (uintValue d 0).
Proof.
  intro Hd. unfold parseInt.
  rewrite trimStart_uint, stripSign_uint, stripPrefix_uint,
    (scanDigits_uint_start d Hd).
  f_equal. lia.
Qed.

Lemma parseInt_minus_uint (d : Decimal.uint) :
  d <> Decimal.Nil ->
  parseInt (String "-" (NilEmpty.string_of_uint d)) = Int (- uintValue d 0).
Proof.
  intro Hd. unfold parseInt.
  change (trimStart (String "-" (NilEmpty.string_of_uint d)))
    with (String "-" (NilEmpty.string_of_uint d)).
  change (stripSign (String "-" (NilEmpty.string_of_uint d)))
    with (-1, NilEmpty.string_of_uint d).
  cbv iota beta.
  rewrite stripPrefix_uint, (scanDigits_uint_start d Hd).
  reflexivity.
Qed.

(** Printing an integer and parsing the text gives the integer back. *)
Lemma parseInt_toString (z : Z) : parseInt (toString z) = Int z.
Proof.
  destruct z as [|p|p]; [reflexivity | ..];
    unfold toString; cbn [Z.to_int NilZero.string_of_int];
    pose proof (DecimalPos.Unsigned.to_uint_nonnil p) as Hp;
    pose proof (DecimalPos.Unsigned.of_to p) as Hv;
    assert (Hs : NilZero.string_of_uint (Pos.to_uint p)
                 = NilEmpty.string_of_uint (Pos.to_uint p))
      by (destruct (Pos.to_uint p); [congruence | reflexivity ..]);
    rewrite Hs.
  - rewrite (parseInt_uint _ Hp), uintValue_zero, Hv. reflexivity.
  - rewrite (parseInt_minus_uint _ Hp), uintValue_zero, Hv. reflexivity.
Qed.

Lemma truthy_toString (z : Z) : truthy (toString z) = true.
Proof.
  destruct z as [|p|p]; [reflexivity | | reflexivity].
  unfold toString; cbn [Z.to_int NilZero.string_of_int].
  pose proof (DecimalPos.Unsigned.to_uint_nonnil p) as Hp.
  destruct (Pos.to_uint p); [congruence | reflexivity ..].
Qed.

(** [Math.floor(x / d)] and [Math.ceil(x / d)] on integers, for a
    positive [d]. *)
Lemma floorDiv_div (x d : Z) : 0 < d -> floorDiv x d = x / d.
Proof.
  intro Hd. unfold floorDiv. symmetry. apply Zdiv_Qdiv.
Qed.

Lemma ceilDiv_div (x d : Z) : 0 < d -> ceilDiv x d = - ((- x) / d).
Proof.
  intro Hd. unfold ceilDiv, Qceiling. f_equal.
  rewrite (Zdiv_Qdiv (- x) d). apply Qfloor_comp.
  rewrite inject_Z_opp. unfold Qdiv. ring.
Qed.

End JsFacts.

(** ** [URLSearchParams] *)

Section URLSearchParamsFacts.

Import URLSearchParams.

Lemma get_delete_other (name other : string) (p : t) :
  other <> name -> get other (delete name p) = get other p.
Proof.
  intro Hne. induction p as [|[k v] p IH]; [reflexivity|].
  cbn [delete filter fst get].
  destruct (String.eqb_spec k name) as [->|Hk]; cbn [negb].
  - fold (delete name p). rewrite IH.
    destruct (String.eqb_spec name other); congruence.
  - fold (delete name p). cbn [get]. rewrite IH. reflexivity.
Qed.

Lemma get_set_same (name value : string) (p : t) :
  get name (set name value p) = Some value.
Proof.
  induction p as [|[k v] p IH]; cbn [set get].
  - rewrite String.eqb_refl. reflexivity.
  - destruct (String.eqb_spec k name) as [->|Hk]; cbn [get].
    + rewrite String.eqb_refl. reflexivity.
    + destruct (String.eqb_spec k name); [congruence | exact IH].
Qed.

Lemma get_set_other (name value other : string) (p : t) :
  other <> name -> get other (set name value p) = get other p.
Proof.
  intro Hne. induction p as [|[k v] p IH]; cbn [set get].
  - destruct (String.eqb_spec name other); congruence.
  - destruct (String.eqb_spec k name) as [->|Hk]; cbn [get].
    + destruct (String.eqb_spec name other); [congruence|].
      apply get_delete_other; assumption.
    + rewrite IH. reflexivity.
Qed.

End URLSearchParamsFacts.

(** ** The search page: URL parameters and page arithmetic *)

Section SearchArithmetic.

Import Search.

Lemma currentPage_Int (o : Z) :
  currentPage (Js.Int o) = Js.Int (o / 6 + 1).
Proof.
  unfold currentPage, Js.lift, PAGE_SIZE.
  rewrite floorDiv_div by lia. reflexivity.
Qed.

Lemma totalPages_div (n : Z) : totalPages n = - (- n / 6).
Proof. unfold totalPages, PAGE_SIZE. apply ceilDiv_div. lia. Qed.

(** The offset that the page reads off a URL whose [offset] parameter is
    the text of an integer. *)
Lemma offset_of_text (p : URLSearchParams.t) (z : Z) :
  URLSearchParams.get "offset" p = Some (Js.toString z) ->
  offset p = Js.Int z.
Proof.
  intro H. unfold offset. rewrite H. unfold Js.or_else.
  rewrite truthy_toString. apply parseInt_toString.
Qed.

(** What the timer body pushes, when it pushes. *)
Lemma timerBody_Some (typed inUrl : string) (href : Href) :
  timerBody typed inUrl = Some href ->
  typed <> inUrl
  /\ pathname href = "/search"
  /\ URLSearchParams.get "offset" (search href) = Some "0"
  /\ URLSearchParams.get "query" (search href)
     = (if Js.truthy typed then Some typed else None)
  /\ query (search href) = typed
  /\ offset (search href) = Js.Int 0.
Proof.
  unfold timerBody.
  destruct (String.eqb_spec typed inUrl) as [|Hne]; cbn [negb];
    [discriminate|].
  intros [= <-]. cbv beta iota zeta delta [pathname search].
  match goal with
  | |- context [URLSearchParams.set "offset" "0" ?p] => set (base := p)
  end.
  assert (Hoff : URLSearchParams.get "offset"
                   (URLSearchParams.set "offset" "0" base) = Some "0")
    by apply get_set_same.
  assert (Hq : URLSearchParams.get "query"
                 (URLSearchParams.set "offset" "0" base)
               = (if Js.truthy typed then Some typed else None)).
  { rewrite get_set_other by discriminate.
    unfold base. destruct (Js.truthy typed); reflexivity. }
  split; [exact Hne|]. split; [reflexivity|].
  split; [exact Hoff|]. split; [exact Hq|]. split.
  - unfold query. rewrite Hq. unfold Js.or_else.
    destruct typed; reflexivity.
  - unfold offset. rewrite Hoff. reflexivity.
Qed.

Lemma timerBody_None (typed inUrl : string) :
  timerBody typed inUrl = None <-> typed = inUrl.
Proof.
  unfold timerBody.
  destruct (String.eqb_spec typed inUrl); cbn [negb]; split;
    congruence || discriminate.
Qed.

End SearchArithmetic.

(** C3.  For every offset and every total count that are safe integers
    (the range in which the page's arithmetic is exact), the page handed
    to the pagination control is [floor(offset / 6) + 1] and the number of
    pages is [ceil(total / 6)], the page size being the constant 6: the
    current page [c] is the one number with [6 * (c - 1) <= offset < 6 * c],
    the total [n] the one number with [6 * (n - 1) < total <= 6 * n], and
    these are the two numbers that a render with data shows on a URL whose
    [offset] parameter is the text of the offset.  An offset that is not a
    number gives a page that is not a number. *)
Theorem C3_page_numbers (offset total : Z) :
  Js.safeInteger offset -> Js.safeInteger total ->
  Search.PAGE_SIZE = 6
  /\ Search.currentPage (Js.Int offset) = Js.Int (offset / 6 + 1)
  /\ 6 * (offset / 6 + 1 - 1) <= offset < 6 * (offset / 6 + 1)
  /\ Search.totalPages total = - (- total / 6)
  /\ 6 * (Search.totalPages total - 1) < total <= 6 * Search.totalPages total
  /\ Search.currentPage Js.NaN = Js.NaN
  /\ (forall url typed results,
         Search.render
           (URLSearchParams.set "offset" (Js.toString offset) url)
           typed false None
           (Some {| Search.total := total; Search.results := results |})
         = Search.Content typed None results
             (Some {| Search.shown_currentPage := Js.Int (offset / 6 + 1);
                      Search.shown_totalPages := - (- total / 6) |})).
Proof.
  intros _ _.
  split; [reflexivity|].
  split; [apply currentPage_Int|].
  split.
  { pose proof (Z.div_mod offset 6) as Hdiv.
    pose proof (Z.mod_pos_bound offset 6) as Hmod. lia. }
  split; [apply totalPages_div|].
  split.
  { rewrite totalPages_div.
    pose proof (Z.div_mod (- total) 6) as Hdiv.
    pose proof (Z.mod_pos_bound (- total) 6) as Hmod. lia. }
  split; [reflexivity|].
  intros url typed results.
  unfold Search.render. cbn [Search.total Search.results].
  rewrite (offset_of_text _ offset) by apply get_set_same.
  rewrite currentPage_Int, totalPages_div. reflexivity.
Qed.

Lemma C3_page_numbers_witness :
  Js.safeInteger 13 /\ Js.safeInteger 14
  /\ Search.currentPage (Js.Int 13) = Js.Int (13 / 6 + 1)
  /\ Search.totalPages 14 = - (- 14 / 6).
Proof.
  assert (H13 : Js.safeInteger 13) by (split; vm_compute; discriminate).
  assert (H14 : Js.safeInteger 14) by (split; vm_compute; discriminate).
  destruct (C3_page_numbers 13 14 H13 H14) as (_ & Hpage & _ & Htotal & _).
  split; [exact H13|]. split; [exact H14|].
  split; [exact Hpage | exact Htotal].
Defined.

(** C4.  For every page number [p >= 1] whose offset [(p - 1) * 6] is a
    safe integer (the range in which the page's arithmetic and the text of
    a number are exact), [handlePageChange(p)] pushes the
    search path with the [offset] parameter set to the text of
    [(p - 1) * 6]; the offset that the page reads off that URL is
    [(p - 1) * 6], and the current page derived from it is [p] again. *)
Theorem C4_page_offset_round_trip (searchParams : URLSearchParams.t) (p : Z) :
  1 <= p ->
  Js.safeInteger ((p - 1) * 6) ->
  let href := Search.handlePageChange searchParams p in
  Search.pathname href = "/search"
  /\ URLSearchParams.get "offset" (Search.search href)
     = Some (Js.toString ((p - 1) * 6))
  /\ Search.offset (Search.search href) = Js.Int ((p - 1) * 6)
  /\ Search.currentPage (Search.offset (Search.search href)) = Js.Int p.
Proof.
  intros Hp _ href.
  assert (Hget : URLSearchParams.get "offset" (Search.search href)
                 = Some (Js.toString ((p - 1) * 6)))
    by apply get_set_same.
  split; [reflexivity|]. split; [exact Hget|].
  rewrite (offset_of_text _ _ Hget).
  split; [reflexivity|].
  rewrite currentPage_Int. f_equal.
  rewrite Z.div_mul by lia. lia.
Qed.

Lemma C4_page_offset_round_trip_witness :
  let href := Search.handlePageChange [("query", "db"); ("offset", "0")] 3 in
  1 <= 3
  /\ Js.safeInteger ((3 - 1) * 6)
  /\ Search.pathname href = "/search"
  /\ URLSearchParams.get "offset" (Search.search href)
     = Some (Js.toString ((3 - 1) * 6))
  /\ Search.offset (Search.search href) = Js.Int ((3 - 1) * 6)
  /\ Search.currentPage (Search.offset (Search.search href)) = Js.Int 3.
Proof.
  assert (Hp : 1 <= 3) by lia.
  assert (Hsafe : Js.safeInteger ((3 - 1) * 6))
    by (split; vm_compute; discriminate).
  split; [exact Hp|]. split; [exact Hsafe|].
  exact (C4_page_offset_round_trip [("query", "db"); ("offset", "0")] 3
           Hp Hsafe).
Defined.

(** ** The tool panel *)

Section PanelFacts.

Import ToolManagement.

Variable mcpServerUuid : string.

Let theRequest : action :=
  Request {| method := "tools/list" |} {| suppressToast := true |}.

(** A fetch whose request settles as [o], from any state: it completes
    normally, with the loading flag down, the one-shot flag untouched,
    the displayed list replaced, and the request followed by the calls
    of its branch. *)
Lemma fetchMCPTools_settling (o : outcome) (w : World) :
  fetchMCPTools mcpServerUuid (makeRequest_settling o) w
  = (Normal tt,
     {| mcpTools := toolsAfter o; loading := false;
        hasInitiallyFetched := hasInitiallyFetched w;
        log := log w ++ theRequest :: callsAfterRequest mcpServerUuid o |}).
Proof.
  destruct o as [e | [[[[|t l]|]]|]]; destruct w as [ts ld flag lg];
    cbv [fetchMCPTools makeRequest_settling try_catch_finally bind call
         setLoading setMcpTools throw ret toolsAfter toolList
         callsAfterRequest tools mcpTools loading hasInitiallyFetched log];
    cbn [List.length Nat.ltb Nat.leb]; rewrite <- ?app_assoc;
    reflexivity.
Qed.

Lemma requests_app (l l' : list action) :
  requests (l ++ l') = (requests l + requests l')%nat.
Proof. unfold requests. rewrite filter_app, length_app. reflexivity. Qed.

Lemma persisted_app (l l' : list action) :
  persisted (l ++ l') = persisted l ++ persisted l'.
Proof.
  induction l as [|a l IH]; [reflexivity|].
  destruct a; cbn [app persisted]; rewrite IH; reflexivity.
Qed.

Lemma requests_callsAfterRequest (o : outcome) :
  requests (callsAfterRequest mcpServerUuid o) = 0%nat.
Proof. destruct o as [e | [[[[|t l]|]]|]]; reflexivity. Qed.

(** A request settles with a non-empty tool list exactly when [toolList]
    finds one. *)
Lemma nonEmpty_toolList (o : outcome) :
  (exists r t l, o = Resolved (Some r) /\ tools r = Some (t :: l))
  <-> (exists t l, toolList o = Some (t :: l)).
Proof.
  split.
  - intros (r & t & l & -> & Hr). exists t, l. exact Hr.
  - intros (t & l & Hlist). destruct o as [e | [r|]]; try discriminate.
    exists r, t, l. split; [reflexivity | exact Hlist].
Qed.

(** The calls of a fetch hold one save when the request settled with a
    non-empty tool list, and none otherwise. *)
Lemma persisted_calls (o : outcome) :
  persisted (theRequest :: callsAfterRequest mcpServerUuid o)
  = match toolList o with
    | Some (t :: l) => [map toolToSave (t :: l)]
    | _ => []
    end.
Proof. destruct o as [e | [[[[|t l]|]]|]]; reflexivity. Qed.

(** The code's test for a new tool is absence by name. *)
Lemma isNew_absent (stored : list Tool) (t : MCPTool) :
  isNew stored t = true <-> ~ In (name t) (map tool_name stored).
Proof.
  unfold isNew. rewrite negb_true_iff, <- not_true_iff_false, existsb_exists.
  split; intros H Hin; apply H.
  - apply in_map_iff in Hin. destruct Hin as [d [Hd Hin]].
    exists d. split; [exact Hin|]. apply String.eqb_eq. exact Hd.
  - destruct Hin as [d [Hin Hd]]. apply String.eqb_eq in Hd.
    rewrite <- Hd. apply in_map. exact Hin.
Qed.

End PanelFacts.

(** C2.  For every list of remote tools and every list of stored tools,
    the count of new tools is the number of remote tools whose name does
    not occur among the names of the stored tools; a tool is among the
    new ones exactly when it is in the remote list and its name is absent
    from the stored list; and that count is the one the header shows (as
    the "new" badge, present when the count is positive). *)
Theorem C2_new_tools_count
    (remote : list ToolManagement.MCPTool) (stored : list ToolManagement.Tool) :
  ToolManagement.newToolsCount remote stored
  = ToolManagement.countAbsent remote stored
  /\ (forall t,
         In t (ToolManagement.newTools remote stored)
         <-> ToolManagement.newByName remote stored t)
  /\ (forall ld flag lg,
         ToolManagement.shown_new
           (ToolManagement.render
              {| ToolManagement.mcpTools := remote;
                 ToolManagement.loading := ld;
                 ToolManagement.hasInitiallyFetched := flag;
                 ToolManagement.log := lg |}
              (Some {| ToolManagement.db_success := true;
                       ToolManagement.db_data := stored |}))
         = if (0 <? ToolManagement.countAbsent remote stored)%nat
           then Some (ToolManagement.countAbsent remote stored)
           else None).
Proof.
  assert (Hcount : ToolManagement.newToolsCount remote stored
                   = ToolManagement.countAbsent remote stored).
  { unfold ToolManagement.newToolsCount, ToolManagement.newTools.
    induction remote as [|t remote IH]; [reflexivity|].
    cbn [filter ToolManagement.countAbsent].
    destruct (in_dec string_dec (ToolManagement.name t)
                (map ToolManagement.tool_name stored)) as [Hin|Hout].
    - destruct (ToolManagement.isNew stored t) eqn:Hnew; [|exact IH].
      apply isNew_absent in Hnew. contradiction.
    - apply isNew_absent in Hout. rewrite Hout.
      cbn [List.length]. f_equal. exact IH. }
  split; [exact Hcount|]. split.
  - intro t. unfold ToolManagement.newTools, ToolManagement.newByName.
    rewrite filter_In, isNew_absent. reflexivity.
  - intros ld flag lg. unfold ToolManagement.render.
    cbn [ToolManagement.shown_new ToolManagement.mcpTools
         ToolManagement.dbTools ToolManagement.db_success
         ToolManagement.db_data].
    rewrite Hcount. reflexivity.
Qed.

(** C1, as stated, fails: with the remote tool [a] already stored under
    that name there is no new tool, and [a] is handed to the create
    mutation all the same. *)
Lemma C1_counterexample :
  let a :=
    {| ToolManagement.name := "a";
       ToolManagement.description := None;
       ToolManagement.inputSchema := None |} in
  let stored :=
    [{| ToolManagement.tool_name := "a";
        ToolManagement.tool_description := None;
        ToolManagement.tool_inputSchema := None |}] in
  let final :=
    snd (ToolManagement.fetchMCPTools "srv"
           (ToolManagement.makeRequest_settling
              (ToolManagement.Resolved
                 (Some {| ToolManagement.tools := Some [a] |})))
           ToolManagement.initial) in
  ~ (forall n,
        In n (ToolManagement.persistedNames (ToolManagement.log final))
        <-> In n (map ToolManagement.name (ToolManagement.newTools [a] stored))).
Proof.
  intros a stored final H.
  destruct (H "a") as [Hpersisted _].
  exact (Hpersisted (or_introl eq_refl)).
Qed.

(** C1, amended.  For every successful [tools/list] response with a tool
    list, the panel hands to the create mutation every tool of the
    response, in order and under its name, whatever is stored (and nothing
    when the list is empty); the newly discovered tools are among them. *)
Theorem C1_persists_all_remote_tools
    (mcpServerUuid : string)
    (remote : list ToolManagement.MCPTool) (stored : list ToolManagement.Tool)
    (w : ToolManagement.World) :
  let final :=
    snd (ToolManagement.fetchMCPTools mcpServerUuid
           (ToolManagement.makeRequest_settling
              (ToolManagement.Resolved
                 (Some {| ToolManagement.tools := Some remote |})))
           w) in
  ToolManagement.persisted (ToolManagement.log final)
  = ToolManagement.persisted (ToolManagement.log w)
    ++ match remote with
       | [] => []
       | _ :: _ => [map ToolManagement.toolToSave remote]
       end
  /\ map ToolManagement.save_name (map ToolManagement.toolToSave remote)
     = map ToolManagement.name remote
  /\ incl (map ToolManagement.name (ToolManagement.newTools remote stored))
          (map ToolManagement.name remote).
Proof.
  intro final. subst final. rewrite fetchMCPTools_settling.
  cbn [snd ToolManagement.log]. split; [|split].
  - rewrite persisted_app. f_equal. destruct remote; reflexivity.
  - rewrite map_map. reflexivity.
  - intros n Hn. apply in_map_iff in Hn. destruct Hn as [t [<- Ht]].
    apply in_map. unfold ToolManagement.newTools in Ht.
    apply filter_In in Ht. exact (proj1 Ht).
Qed.

(** C5.  For every failure of the [tools/list] request, [fetchMCPTools]
    completes normally (the error is not thrown again): it logs the error,
    raises the error notification with the error's text, leaves the
    displayed tool list empty and the loading flag down; the request is
    made once and nothing is saved. *)
Theorem C5_fetch_failure
    (mcpServerUuid : string)
    (makeRequest :
       ToolManagement.ClientRequest -> ToolManagement.RequestOptions ->
       ToolManagement.M (option ToolManagement.ToolsListResponse))
    (e : Js.thrown) (w w1 : ToolManagement.World) :
  makeRequest {| ToolManagement.method := "tools/list" |}
              {| ToolManagement.suppressToast := true |}
              (snd (ToolManagement.setLoading true w))
  = (ToolManagement.Throw e, w1) ->
  ToolManagement.fetchMCPTools mcpServerUuid makeRequest w
  = (ToolManagement.Normal tt,
     {| ToolManagement.mcpTools := [];
        ToolManagement.loading := false;
        ToolManagement.hasInitiallyFetched :=
          ToolManagement.hasInitiallyFetched w1;
        ToolManagement.log :=
          ToolManagement.log w1
          ++ [ToolManagement.ConsoleError "Error fetching MCP tools:" e;
              ToolManagement.ToastError "Failed to fetch tools from MCP server"
                (Some (ToolManagement.thrownText e))] |})
  /\ (let final :=
        snd (ToolManagement.fetchMCPTools mcpServerUuid
               (ToolManagement.makeRequest_settling (ToolManagement.Rejected e))
               w) in
      ToolManagement.requests (ToolManagement.log final)
      = S (ToolManagement.requests (ToolManagement.log w))
      /\ ToolManagement.mutations (ToolManagement.log final)
         = ToolManagement.mutations (ToolManagement.log w)
      /\ ToolManagement.mcpTools final = []).
Proof.
  intro Hthrow. split.
  - destruct w as [ts ld flag lg].
    cbv [ToolManagement.fetchMCPTools ToolManagement.bind
         ToolManagement.try_catch_finally ToolManagement.setLoading snd
         ToolManagement.mcpTools ToolManagement.loading
         ToolManagement.hasInitiallyFetched ToolManagement.log]
      in Hthrow |- *.
    rewrite Hthrow. destruct w1 as [ts1 ld1 flag1 lg1].
    cbv [ToolManagement.call ToolManagement.setMcpTools
         ToolManagement.mcpTools ToolManagement.loading
         ToolManagement.hasInitiallyFetched ToolManagement.log
         ToolManagement.thrownText].
    rewrite <- app_assoc. reflexivity.
  - rewrite fetchMCPTools_settling. cbn [snd ToolManagement.log
      ToolManagement.mcpTools ToolManagement.toolsAfter ToolManagement.toolList].
    unfold ToolManagement.mutations.
    rewrite requests_app, persisted_app. cbn. rewrite app_nil_r.
    split; [lia | split; reflexivity].
Qed.

Lemma C5_fetch_failure_witness :
  let e := Js.Error "connection closed" in
  let w1 :=
    {| ToolManagement.mcpTools := [];
       ToolManagement.loading := true;
       ToolManagement.hasInitiallyFetched := false;
       ToolManagement.log :=
         [ToolManagement.Request {| ToolManagement.method := "tools/list" |}
            {| ToolManagement.suppressToast := true |}] |} in
  ToolManagement.fetchMCPTools "srv"
    (ToolManagement.makeRequest_settling (ToolManagement.Rejected e))
    ToolManagement.initial
  = (ToolManagement.Normal tt,
     {| ToolManagement.mcpTools := [];
        ToolManagement.loading := false;
        ToolManagement.hasInitiallyFetched := false;
        ToolManagement.log :=
          ToolManagement.log w1
          ++ [ToolManagement.ConsoleError "Error fetching MCP tools:" e;
              ToolManagement.ToastError "Failed to fetch tools from MCP server"
                (Some "connection closed")] |}).
Proof.
  intros e w1.
  apply (C5_fetch_failure "srv"
           (ToolManagement.makeRequest_settling (ToolManagement.Rejected e))
           e ToolManagement.initial w1).
  reflexivity.
Defined.

(** C10.  The create mutation is invoked by a fetch if and only if the
    [tools/list] request succeeds with a non-empty tool list; when the
    request succeeds with an empty or missing tool list, the fetch makes
    no save call and shows the informational notification instead. *)
Theorem C10_save_iff_nonempty
    (mcpServerUuid : string) (o : ToolManagement.outcome)
    (w : ToolManagement.World) :
  let final :=
    snd (ToolManagement.fetchMCPTools mcpServerUuid
           (ToolManagement.makeRequest_settling o) w) in
  let nonEmpty :=
    exists r t l,
      o = ToolManagement.Resolved (Some r)
      /\ ToolManagement.tools r = Some (t :: l) in
  (ToolManagement.mutations (ToolManagement.log final)
   = S (ToolManagement.mutations (ToolManagement.log w)) <-> nonEmpty)
  /\ (ToolManagement.mutations (ToolManagement.log final)
      = ToolManagement.mutations (ToolManagement.log w) <-> ~ nonEmpty)
  /\ (forall response,
         o = ToolManagement.Resolved response ->
         ~ nonEmpty ->
         ToolManagement.log final
         = ToolManagement.log w
           ++ [ToolManagement.Request
                 {| ToolManagement.method := "tools/list" |}
                 {| ToolManagement.suppressToast := true |};
               ToolManagement.ToastInfo "No tools found on MCP server"]).
Proof.
  intros final nonEmpty. subst final.
  rewrite fetchMCPTools_settling. cbn [snd ToolManagement.log].
  unfold ToolManagement.mutations.
  rewrite persisted_app, length_app, persisted_calls.
  assert (Hlist : nonEmpty
                  <-> exists t l, ToolManagement.toolList o = Some (t :: l))
    by apply nonEmpty_toolList.
  destruct (ToolManagement.toolList o) as [[|t l]|] eqn:Ho; cbn [List.length].
  - assert (Hno : ~ nonEmpty)
      by (rewrite Hlist; intros (t & l & Hsome); discriminate).
    split; [split; [lia | contradiction]|].
    split; [split; [intros _; exact Hno | lia]|].
    intros response -> _.
    destruct response as [[[ts|]]|]; cbn in Ho; inversion Ho; reflexivity.
  - assert (Hyes : nonEmpty) by (rewrite Hlist; exists t, l; reflexivity).
    split; [split; [intros _; exact Hyes | lia]|].
    split; [split; [lia | contradiction]|].
    intros response _ Hno. contradiction.
  - assert (Hno : ~ nonEmpty)
      by (rewrite Hlist; intros (t & l & Hsome); discriminate).
    split; [split; [lia | contradiction]|].
    split; [split; [intros _; exact Hno | lia]|].
    intros response -> _.
    destruct response as [[[ts|]]|]; cbn in Ho; try discriminate; reflexivity.
Qed.

Lemma C10_save_iff_nonempty_witness :
  let o :=
    ToolManagement.Resolved (Some {| ToolManagement.tools := Some [] |}) in
  let final :=
    snd (ToolManagement.fetchMCPTools "srv"
           (ToolManagement.makeRequest_settling o) ToolManagement.initial) in
  ToolManagement.log final
  = [ToolManagement.Request
       {| ToolManagement.method := "tools/list" |}
       {| ToolManagement.suppressToast := true |};
     ToolManagement.ToastInfo "No tools found on MCP server"]
  /\ ToolManagement.mutations (ToolManagement.log final) = 0%nat.
Proof.
  intros o final.
  assert (Hempty : ~ exists r t l,
             o = ToolManagement.Resolved (Some r)
             /\ ToolManagement.tools r = Some (t :: l)).
  { intros (r & t & l & Ho & Hr). injection Ho as <-. discriminate Hr. }
  destruct (C10_save_iff_nonempty "srv" o ToolManagement.initial)
    as (_ & Hsame & Hinfo).
  split.
  - exact (Hinfo _ eq_refl Hempty).
  - exact (proj2 Hsame Hempty).
Defined.

(** C8.  When the answer of the create mutation has its success flag
    false, the error text of the answer is shown in an error notification,
    or the generic text when the answer has no error text; and when the
    search answer is not OK, the error raised carries the status, the
    status text and the body text, and the page shows it. *)
Theorem C8_errors_surfaced
    (mcpServerUuid : string) (response : ToolManagement.CreateResponse)
    (w : ToolManagement.World)
    (res : Search.Response)
    (url : URLSearchParams.t) (typed : string)
    (data : option Search.PaginatedSearchResult) :
  ToolManagement.success response = false ->
  Search.ok res = false ->
  ToolManagement.onSuccess mcpServerUuid response w
  = (ToolManagement.Normal tt,
     {| ToolManagement.mcpTools := ToolManagement.mcpTools w;
        ToolManagement.loading := ToolManagement.loading w;
        ToolManagement.hasInitiallyFetched :=
          ToolManagement.hasInitiallyFetched w;
        ToolManagement.log :=
          ToolManagement.log w
          ++ [ToolManagement.ToastError
                (match ToolManagement.error response with
                 | Some (String c s) => String c s
                 | _ => "Failed to save tools"
                 end) None] |})
  /\ (let message :=
        ("Failed to fetch: " ++ Js.toString (Search.status res) ++ " "
         ++ Search.statusText res ++ " - " ++ Search.text res)%string in
      Search.queryFn (inr res) = inl (Js.Error message)
      /\ exists cards pagination,
           Search.render url typed false (Some (Js.Error message)) data
           = Search.Content typed (Some ("Error: " ++ message)%string)
               cards pagination).
Proof.
  intros Hfail Hnotok. split.
  - unfold ToolManagement.onSuccess. rewrite Hfail.
    unfold ToolManagement.call, Js.or_else.
    destruct (ToolManagement.error response) as [[|c s]|]; reflexivity.
  - cbv zeta. split.
    + unfold Search.queryFn. rewrite Hnotok. reflexivity.
    + unfold Search.render. eexists. eexists. reflexivity.
Qed.

Lemma C8_errors_surfaced_witness :
  ToolManagement.onSuccess "srv"
    {| ToolManagement.success := false;
       ToolManagement.error := Some "duplicate tool" |}
    ToolManagement.initial
  = (ToolManagement.Normal tt,
     {| ToolManagement.mcpTools := [];
        ToolManagement.loading := false;
        ToolManagement.hasInitiallyFetched := false;
        ToolManagement.log :=
          [ToolManagement.ToastError "duplicate tool" None] |})
  /\ Search.queryFn
       (inr {| Search.ok := false; Search.status := 503;
               Search.statusText := "Service Unavailable";
               Search.text := "index offline";
               Search.json := inl (Js.Other "") |})
     = inl (Js.Error
              "Failed to fetch: 503 Service Unavailable - index offline").
Proof.
  pose proof
    (C8_errors_surfaced "srv"
       {| ToolManagement.success := false;
          ToolManagement.error := Some "duplicate tool" |}
       ToolManagement.initial
       {| Search.ok := false; Search.status := 503;
          Search.statusText := "Service Unavailable";
          Search.text := "index offline";
          Search.json := inl (Js.Other "") |}
       [] "" None eq_refl eq_refl) as [Hsave [Hquery _]].
  split; [exact Hsave | exact Hquery].
Defined.

(** ** The mount effect and its one-shot flag *)

Section MountEffect.

Import ToolManagement.

Variable mcpServerUuid : string.

Let theRequest : action :=
  Request {| method := "tools/list" |} {| suppressToast := true |}.

(** The two parts of [fetchMCPTools]. *)
Lemma fetchMCPTools_call_spec (w : World) :
  fetchMCPTools_call w
  = (Normal tt,
     {| mcpTools := mcpTools w; loading := true;
        hasInitiallyFetched := hasInitiallyFetched w;
        log := log w ++ [theRequest] |}).
Proof. reflexivity. Qed.

Lemma fetchMCPTools_resume_spec (o : outcome) (w : World) :
  fetchMCPTools_resume mcpServerUuid o w
  = (Normal tt,
     {| mcpTools := toolsAfter o; loading := false;
        hasInitiallyFetched := hasInitiallyFetched w;
        log := log w ++ callsAfterRequest mcpServerUuid o |}).
Proof.
  destruct o as [e | [[[[|t l]|]]|]]; destruct w as [ts ld flag lg];
    cbv [fetchMCPTools_resume try_catch_finally bind call
         setLoading setMcpTools throw ret toolsAfter toolList
         callsAfterRequest tools mcpTools loading hasInitiallyFetched log];
    cbn [List.length Nat.ltb Nat.leb]; rewrite <- ?app_assoc;
    reflexivity.
Qed.

(** Cut at its [await], [fetchMCPTools] is the part run by the call
    followed by the part run at the settlement. *)
Lemma fetchMCPTools_split (o : outcome) (w : World) :
  fetchMCPTools mcpServerUuid (makeRequest_settling o) w
  = bind fetchMCPTools_call
      (fun _ => fetchMCPTools_resume mcpServerUuid o) w.
Proof.
  rewrite fetchMCPTools_settling. unfold bind.
  rewrite fetchMCPTools_call_spec, fetchMCPTools_resume_spec.
  cbn [hasInitiallyFetched log]. rewrite <- app_assoc. reflexivity.
Qed.

Lemma requests_snoc (l : list action) (a : action) :
  requests (l ++ [a]) = (requests l + (if isRequest a then 1 else 0))%nat.
Proof.
  rewrite requests_app. unfold requests. cbn.
  destruct (isRequest a); reflexivity.
Qed.

(** The mount effect, by the state of the flag. *)
Lemma mountEffect_fetched (w : World) :
  hasInitiallyFetched w = true ->
  mountEffect fetchMCPTools_call w = (Normal tt, w).
Proof.
  intro Hflag. unfold mountEffect, bind, getHasInitiallyFetched.
  rewrite Hflag. reflexivity.
Qed.

Lemma mountEffect_first (w : World) :
  hasInitiallyFetched w = false ->
  mountEffect fetchMCPTools_call w
  = (Normal tt,
     {| mcpTools := mcpTools w; loading := true;
        hasInitiallyFetched := true;
        log := log w ++ [theRequest] |}).
Proof.
  intro Hflag. unfold mountEffect, bind at 1, getHasInitiallyFetched.
  rewrite Hflag. reflexivity.
Qed.

Lemma after_unchanged (c : M unit) (p : Panel) :
  snd (c (world p)) = world p -> after c p = p.
Proof.
  intro Hsame. unfold after. rewrite Hsame, !Nat.sub_diag, !Nat.add_0_r.
  destruct p; reflexivity.
Qed.

(** What each event does to the flag and to the number of requests. *)
Lemma step_effect_fetched (p : Panel) :
  hasInitiallyFetched (world p) = true ->
  step mcpServerUuid p EffectRun = Some p.
Proof.
  intro Hflag. cbn [step]. f_equal. apply after_unchanged.
  rewrite mountEffect_fetched by exact Hflag. reflexivity.
Qed.

Lemma step_effect_first (p : Panel) :
  hasInitiallyFetched (world p) = false ->
  step mcpServerUuid p EffectRun
  = Some {| world :=
              {| mcpTools := mcpTools (world p); loading := true;
                 hasInitiallyFetched := true;
                 log := log (world p) ++ [theRequest] |};
            awaiting := S (awaiting p);
            saving := saving p |}.
Proof.
  intro Hflag. cbn [step]. unfold after.
  rewrite mountEffect_first by exact Hflag. cbn [snd log].
  unfold mutations. rewrite requests_snoc, persisted_app.
  change (isRequest theRequest) with true.
  change (persisted [theRequest]) with (@nil (list ToolToSave)).
  rewrite app_nil_r. f_equal. f_equal; lia.
Qed.

Lemma step_flag (p p' : Panel) (ev : event) :
  step mcpServerUuid p ev = Some p' ->
  hasInitiallyFetched (world p')
  = hasInitiallyFetched (world p) || isEffectRun ev.
Proof.
  destruct ev as [ | | o | captured r | e]; cbn [isEffectRun step].
  - intros [= <-]. unfold after. cbn [world].
    destruct (hasInitiallyFetched (world p)) eqn:Hflag.
    + rewrite mountEffect_fetched by exact Hflag. exact Hflag.
    + rewrite mountEffect_first by exact Hflag. reflexivity.
  - intros [= <-]. rewrite orb_false_r. reflexivity.
  - destruct (awaiting p); [discriminate|]. intros [= <-].
    rewrite orb_false_r. unfold after. cbn [world].
    rewrite fetchMCPTools_resume_spec. reflexivity.
  - destruct (saving p); [discriminate|]. intros [= <-].
    rewrite orb_false_r. unfold after, onSuccessOf. cbn [world].
    destruct (success r); reflexivity.
  - destruct (saving p); [discriminate|]. intros [= <-].
    rewrite orb_false_r. reflexivity.
Qed.

Lemma step_requests (p p' : Panel) (ev : event) :
  step mcpServerUuid p ev = Some p' ->
  requests (log (world p'))
  = (requests (log (world p))
     + (if isEffectRun ev
        then (if hasInitiallyFetched (world p) then 0 else 1)
        else if isRefreshClick ev then 1 else 0))%nat.
Proof.
  destruct ev as [ | | o | captured r | e];
    cbn [isEffectRun isRefreshClick].
  - destruct (hasInitiallyFetched (world p)) eqn:Hflag.
    + rewrite step_effect_fetched by exact Hflag. intros [= <-]. lia.
    + rewrite step_effect_first by exact Hflag. intros [= <-].
      cbn [world log]. rewrite requests_snoc. reflexivity.
  - cbn [step]. intros [= <-].
    unfold after. cbn [world]. rewrite fetchMCPTools_call_spec.
    cbn [snd log]. rewrite requests_snoc. reflexivity.
  - cbn [step]. destruct (awaiting p); [discriminate|]. intros [= <-].
    unfold after. cbn [world]. rewrite fetchMCPTools_resume_spec.
    cbn [snd log]. rewrite requests_app, requests_callsAfterRequest.
    reflexivity.
  - cbn [step]. destruct (saving p); [discriminate|]. intros [= <-].
    unfold after, onSuccessOf. cbn [world].
    destruct (success r);
      cbv [bind call snd log mcpTools loading hasInitiallyFetched];
      rewrite !requests_snoc; cbn [isRequest]; lia.
  - cbn [step]. destruct (saving p); [discriminate|]. intros [= <-].
    unfold after. cbn [world].
    cbv [onError bind call snd log mcpTools loading hasInitiallyFetched].
    rewrite !requests_snoc. cbn [isRequest]. lia.
Qed.

Lemma run_flag (evs : list event) (p p' : Panel) :
  run mcpServerUuid p evs = Some p' ->
  hasInitiallyFetched (world p')
  = hasInitiallyFetched (world p) || existsb isEffectRun evs.
Proof.
  revert p. induction evs as [|ev evs IH]; intros p Hrun.
  - injection Hrun as <-. rewrite orb_false_r. reflexivity.
  - cbn [run] in Hrun.
    destruct (step mcpServerUuid p ev) as [p1|] eqn:Hstep; [|discriminate].
    rewrite (IH p1 Hrun), (step_flag _ _ _ Hstep).
    cbn [existsb]. rewrite orb_assoc. reflexivity.
Qed.

(** The requests of a run: one for each click on Refresh, and one for the
    mount effect if it is invoked while the flag is down. *)
Lemma run_requests (evs : list event) (p p' : Panel) :
  run mcpServerUuid p evs = Some p' ->
  requests (log (world p'))
  = (requests (log (world p))
     + (if hasInitiallyFetched (world p) then 0
        else if existsb isEffectRun evs then 1 else 0)
     + refreshClicks evs)%nat.
Proof.
  revert p. induction evs as [|ev evs IH]; intros p Hrun.
  - injection Hrun as <-. cbn.
    destruct (hasInitiallyFetched (world p)); lia.
  - cbn [run] in Hrun.
    destruct (step mcpServerUuid p ev) as [p1|] eqn:Hstep; [|discriminate].
    rewrite (IH p1 Hrun), (step_requests _ _ _ Hstep),
      (step_flag _ _ _ Hstep).
    unfold refreshClicks. cbn [existsb filter].
    destruct ev; cbn [isEffectRun isRefreshClick orb List.length];
      destruct (hasInitiallyFetched (world p));
      cbn [orb]; try lia;
      destruct (existsb isEffectRun evs); lia.
Qed.

End MountEffect.

(** C6.  Take any sequence of events of a mounted panel: invocations of
    the mount effect, clicks on Refresh, settlements of requests made
    earlier and answers to saves, in any order that can happen, with any
    number of them while a request is outstanding.  The one-shot flag is
    up exactly when the mount effect has been invoked before; an
    invocation of the mount effect after an earlier one changes nothing
    (it makes no request, whether or not the first request has settled),
    and the first one makes one request and raises the flag at once.  So
    the requests of the whole sequence are one for each click on Refresh
    and, if the mount effect was invoked at all, one more. *)
Theorem C6_mount_fetch_once
    (mcpServerUuid : string) (evs : list ToolManagement.event)
    (p : ToolManagement.Panel) :
  ToolManagement.run mcpServerUuid ToolManagement.mounted evs = Some p ->
  ToolManagement.hasInitiallyFetched (ToolManagement.world p)
  = existsb ToolManagement.isEffectRun evs
  /\ (if existsb ToolManagement.isEffectRun evs
      then ToolManagement.step mcpServerUuid p ToolManagement.EffectRun
           = Some p
      else exists p',
             ToolManagement.step mcpServerUuid p ToolManagement.EffectRun
             = Some p'
             /\ ToolManagement.requests
                  (ToolManagement.log (ToolManagement.world p'))
                = S (ToolManagement.requests
                       (ToolManagement.log (ToolManagement.world p)))
             /\ ToolManagement.hasInitiallyFetched (ToolManagement.world p')
                = true
             /\ ToolManagement.awaiting p' = S (ToolManagement.awaiting p))
  /\ ToolManagement.requests (ToolManagement.log (ToolManagement.world p))
     = ((if existsb ToolManagement.isEffectRun evs then 1 else 0)
        + ToolManagement.refreshClicks evs)%nat.
Proof.
  intro Hrun.
  assert (Hflag : ToolManagement.hasInitiallyFetched (ToolManagement.world p)
                  = existsb ToolManagement.isEffectRun evs)
    by (rewrite (run_flag _ _ _ _ Hrun); reflexivity).
  split; [exact Hflag|]. split.
  - destruct (existsb ToolManagement.isEffectRun evs).
    + apply step_effect_fetched. exact Hflag.
    + eexists. split; [apply step_effect_first; exact Hflag|].
      cbn [ToolManagement.world ToolManagement.log
           ToolManagement.hasInitiallyFetched ToolManagement.awaiting].
      rewrite requests_snoc. cbn [ToolManagement.isRequest].
      repeat split; lia.
  - rewrite (run_requests _ _ _ _ Hrun). reflexivity.
Qed.

Lemma C6_mount_fetch_once_witness :
  let t :=
    {| ToolManagement.name := "echo"; ToolManagement.description := None;
       ToolManagement.inputSchema := None |} in
  let evs :=
    [ToolManagement.EffectRun; ToolManagement.EffectRun;
     ToolManagement.RequestSettled
       (ToolManagement.Resolved
          (Some {| ToolManagement.tools := Some [t] |}));
     ToolManagement.EffectRun] in
  let p :=
    {| ToolManagement.world :=
         {| ToolManagement.mcpTools := [t];
            ToolManagement.loading := false;
            ToolManagement.hasInitiallyFetched := true;
            ToolManagement.log :=
              [ToolManagement.Request
                 {| ToolManagement.method := "tools/list" |}
                 {| ToolManagement.suppressToast := true |};
               ToolManagement.Mutate "srv" [ToolManagement.toolToSave t]] |};
       ToolManagement.awaiting := 0;
       ToolManagement.saving := 1 |} in
  ToolManagement.run "srv" ToolManagement.mounted evs = Some p
  /\ ToolManagement.step "srv" p ToolManagement.EffectRun = Some p
  /\ ToolManagement.requests (ToolManagement.log (ToolManagement.world p))
     = 1%nat.
Proof.
  intros t evs p.
  assert (Hrun : ToolManagement.run "srv" ToolManagement.mounted evs = Some p)
    by reflexivity.
  destruct (C6_mount_fetch_once "srv" evs p Hrun) as (_ & Hagain & Hcount).
  split; [exact Hrun|]. split; [exact Hagain | exact Hcount].
Defined.

(** ** The debounce effect *)

Section Debounce.

Import Search.

Lemma filter_none {A} (f : A -> bool) (l : list A) :
  (forall x, In x l -> f x = false) -> filter f l = [].
Proof.
  induction l as [|x l IH]; intro H; [reflexivity|].
  cbn [filter]. rewrite (H x (or_introl eq_refl)).
  apply IH. intros y Hy. apply H. right. exact Hy.
Qed.

(** One run of the effect leaves exactly the timer it sets. *)
Lemma runEffect_spec (st : State) :
  clearedByCleanup st ->
  runEffect st
  = {| now := now st; searchParams := searchParams st;
       searchQuery := searchQuery st;
       timers :=
         [{| timer_id := nextTimer st; due := now st + DEBOUNCE_MS;
             closed_searchQuery := searchQuery st;
             closed_query := query (searchParams st) |}];
       nextTimer := S (nextTimer st);
       cleanup := Some (nextTimer st); pushed := pushed st |}.
Proof.
  intro Hclr. unfold runEffect.
  assert (Hnone :
    timers (match cleanup st with
            | Some timer => clearTimeout timer st
            | None => st
            end) = []).
  { destruct (cleanup st) as [c|] eqn:Hc.
    - cbn [clearTimeout timers].
      apply filter_none.
      intros t Ht. specialize (Hclr t Ht). rewrite Hc in Hclr.
      injection Hclr as <-. rewrite Nat.eqb_refl. reflexivity.
    - destruct (timers st) as [|t ts] eqn:Hts; [reflexivity|].
      specialize (Hclr t). rewrite Hts, Hc in Hclr.
      specialize (Hclr (or_introl eq_refl)). discriminate. }
  destruct (cleanup st) as [c|]; cbn [setTimeout clearTimeout now
    searchParams searchQuery timers nextTimer cleanup pushed] in *;
    rewrite Hnone; reflexivity.
Qed.

Lemma currentTimerOnly_cleared (st : State) :
  currentTimerOnly st -> clearedByCleanup st.
Proof. intros H t Ht. exact (proj1 (proj2 (H t Ht))). Qed.

Lemma currentTimerOnly_runEffect (st : State) :
  clearedByCleanup st -> currentTimerOnly (runEffect st).
Proof.
  intro Hclr. rewrite (runEffect_spec st Hclr).
  intros t [<- | []]. cbn. repeat split; lia.
Qed.

Lemma setSince_runEffect (d n : nat) (st : State) :
  clearedByCleanup st ->
  (d <= now st + DEBOUNCE_MS)%nat -> (n <= nextTimer st)%nat ->
  setSince d n (runEffect st).
Proof.
  intros Hclr Hd Hn. rewrite (runEffect_spec st Hclr).
  unfold setSince. cbn [now nextTimer timers].
  split; [exact Hd|]. split; [lia|].
  intros t [<- | []]. cbn. split; lia.
Qed.

(** What firing a timer requires and does. *)
Lemma fire_spec (st st' : State) (timer : nat) :
  step st (Fire timer) = Some st' ->
  exists t,
    In t (timers st) /\ timer_id t = timer /\ (due t <= now st)%nat
    /\ now st' = now st
    /\ searchParams st' = searchParams st
    /\ searchQuery st' = searchQuery st
    /\ nextTimer st' = nextTimer st
    /\ cleanup st' = cleanup st
    /\ timers st'
       = filter (fun t' => negb (timer_id t' =? timer)%nat) (timers st)
    /\ pushed st'
       = match timerBody (closed_searchQuery t) (closed_query t) with
         | Some href => href :: pushed st
         | None => pushed st
         end.
Proof.
  cbn [step]. unfold findTimer.
  destruct (find _ (timers st)) as [t|] eqn:Hfind; [|discriminate].
  apply find_some in Hfind. destruct Hfind as [Hin Hid].
  apply Nat.eqb_eq in Hid.
  destruct (Nat.leb_spec (due t) (now st)) as [Hdue|]; [|discriminate].
  intros [= <-]. exists t. cbn. repeat split; assumption.
Qed.

Lemma step_currentTimerOnly (st st' : State) (ev : event) :
  currentTimerOnly st -> step st ev = Some st' -> currentTimerOnly st'.
Proof.
  intros Hinv Hstep. pose proof (currentTimerOnly_cleared st Hinv) as Hclr.
  destruct ev as [value | url | ms | timer].
  - cbn [step] in Hstep. destruct (String.eqb value (searchQuery st)).
    + injection Hstep as <-. exact Hinv.
    + injection Hstep as <-. apply currentTimerOnly_runEffect. exact Hclr.
  - cbn [step] in Hstep.
    destruct (String.eqb_spec (query url) (query (searchParams st)))
      as [Hq|Hq].
    + injection Hstep as <-. intros t Ht. cbn in *.
      destruct (Hinv t Ht) as (H1 & H2 & H3 & H4 & H5).
      repeat split; try assumption. congruence.
    + injection Hstep as <-. apply currentTimerOnly_runEffect. exact Hclr.
  - injection Hstep as <-. exact Hinv.
  - apply fire_spec in Hstep.
    destruct Hstep as (t & Hin & Hid & _ & _ & _ & _ & _ & _ & Htimers & _).
    destruct (Hinv t Hin) as (Hone & _).
    intros t' Ht'. rewrite Htimers, Hone in Ht'. cbn in Ht'.
    rewrite Hid, Nat.eqb_refl in Ht'. destruct Ht'.
Qed.

Lemma mount_currentTimerOnly (t0 : nat) (url : URLSearchParams.t) :
  currentTimerOnly (mount t0 url).
Proof. apply currentTimerOnly_runEffect. intros t []. Qed.

Lemma run_currentTimerOnly (evs : list event) (st st' : State) :
  currentTimerOnly st -> run st evs = Some st' -> currentTimerOnly st'.
Proof.
  revert st. induction evs as [|ev evs IH]; intros st Hinv Hrun.
  - injection Hrun as <-. exact Hinv.
  - cbn [run] in Hrun. destruct (step st ev) as [st1|] eqn:Hstep;
      [|discriminate].
    exact (IH st1 (step_currentTimerOnly _ _ _ Hinv Hstep) Hrun).
Qed.

Lemma step_setSince (d n : nat) (st st' : State) (ev : event) :
  currentTimerOnly st -> setSince d n st -> step st ev = Some st' ->
  setSince d n st'.
Proof.
  intros Hinv (Hd & Hn & Hts) Hstep.
  pose proof (currentTimerOnly_cleared st Hinv) as Hclr.
  destruct ev as [value | url | ms | timer].
  - cbn [step] in Hstep. destruct (String.eqb value (searchQuery st)).
    + injection Hstep as <-. repeat split; try assumption; apply Hts; assumption.
    + injection Hstep as <-. apply setSince_runEffect; assumption.
  - cbn [step] in Hstep.
    destruct (String.eqb (query url) (query (searchParams st))).
    + injection Hstep as <-. repeat split; try assumption;
        apply Hts; assumption.
    + injection Hstep as <-. apply setSince_runEffect; assumption.
  - injection Hstep as <-. unfold setSince. cbn.
    split; [lia|]. split; [exact Hn | exact Hts].
  - apply fire_spec in Hstep.
    destruct Hstep as (t & _ & _ & _ & Hnow & _ & _ & Hnext & _ & Htimers & _).
    unfold setSince. rewrite Hnow, Hnext, Htimers.
    split; [exact Hd|]. split; [exact Hn|].
    intros t' Ht'. apply filter_In in Ht'. apply Hts. exact (proj1 Ht').
Qed.

Lemma run_setSince (d n : nat) (evs : list event) (st st' : State) :
  currentTimerOnly st -> setSince d n st -> run st evs = Some st' ->
  setSince d n st'.
Proof.
  revert st. induction evs as [|ev evs IH]; intros st Hinv Hsince Hrun.
  - injection Hrun as <-. exact Hsince.
  - cbn [run] in Hrun. destruct (step st ev) as [st1|] eqn:Hstep;
      [|discriminate].
    exact (IH st1 (step_currentTimerOnly _ _ _ Hinv Hstep)
             (step_setSince _ _ _ _ _ Hinv Hsince Hstep) Hrun).
Qed.

End Debounce.

(** C7.  Take a mounted search page in any state it can reach, and a
    change of the input to a value other than the one it holds.  Then
    (1) no timer that was pending at the change ever fires afterwards;
    (2) whenever a timer does fire afterwards, at least 500 ms have passed
    since the change (hence since the last such change), and it navigates
    only if the typed query differs from the query in the URL;
    (3) when the new value differs from the query in the URL and 500 ms
    pass with no other event, the timer set by the change fires and
    navigates to the typed query. *)
Theorem C7_debounced_navigation
    (t0 : nat) (url : URLSearchParams.t)
    (evs1 : list Search.event) (st1 : Search.State)
    (value : string)
    (evs2 : list Search.event) (st2 : Search.State) :
  Search.run (Search.mount t0 url) evs1 = Some st1 ->
  value <> Search.searchQuery st1 ->
  Search.run st1 (Search.Change value :: evs2) = Some st2 ->
  Search.DEBOUNCE_MS = 500%nat
  /\ (forall t,
         In t (Search.timers st1) ->
         Search.step st2 (Search.Fire (Search.timer_id t)) = None)
  /\ (forall timer st3,
         Search.step st2 (Search.Fire timer) = Some st3 ->
         (Search.now st1 + 500 <= Search.now st2)%nat
         /\ Search.pushed st3
            = match Search.timerBody (Search.searchQuery st2)
                      (Search.query (Search.searchParams st2)) with
              | Some href => href :: Search.pushed st2
              | None => Search.pushed st2
              end
         /\ (Search.pushed st3 <> Search.pushed st2 ->
             Search.searchQuery st2
             <> Search.query (Search.searchParams st2)))
  /\ (value <> Search.query (Search.searchParams st1) ->
      exists st3 href,
        Search.run st1
          [Search.Change value; Search.Elapse 500;
           Search.Fire (Search.nextTimer st1)] = Some st3
        /\ Search.pushed st3 = href :: Search.pushed st1
        /\ Search.query (Search.search href) = value).
Proof.
  intros Hreach Hvalue Hrun.
  pose proof (run_currentTimerOnly _ _ _ (mount_currentTimerOnly t0 url) Hreach)
    as Hinv1.
  pose proof (currentTimerOnly_cleared _ Hinv1) as Hclr1.
  set (typedState :=
         {| Search.now := Search.now st1;
            Search.searchParams := Search.searchParams st1;
            Search.searchQuery := value;
            Search.timers := Search.timers st1;
            Search.nextTimer := Search.nextTimer st1;
            Search.cleanup := Search.cleanup st1;
            Search.pushed := Search.pushed st1 |}).
  assert (Hclr : Search.clearedByCleanup typedState) by exact Hclr1.
  assert (Hchange : Search.step st1 (Search.Change value)
                    = Some (Search.runEffect typedState)).
  { cbn [Search.step].
    destruct (String.eqb_spec value (Search.searchQuery st1)); [contradiction|].
    reflexivity. }
  cbn [Search.run] in Hrun. rewrite Hchange in Hrun.
  pose proof (currentTimerOnly_runEffect _ Hclr) as HinvC.
  assert (HsinceC : Search.setSince (Search.now st1 + Search.DEBOUNCE_MS)
                      (Search.nextTimer st1) (Search.runEffect typedState))
    by (apply setSince_runEffect; [exact Hclr | apply Nat.le_refl | apply Nat.le_refl]).
  pose proof (run_currentTimerOnly _ _ _ HinvC Hrun) as Hinv2.
  pose proof (run_setSince _ _ _ _ _ HinvC HsinceC Hrun) as (_ & _ & Hsince2).
  split; [reflexivity|]. split; [|split].
  - intros t Ht.
    destruct (Search.step st2 (Search.Fire (Search.timer_id t))) as [st3|] eqn:Hfire;
      [|reflexivity].
    exfalso. apply fire_spec in Hfire.
    destruct Hfire as (t2 & Hin2 & Hid & _).
    destruct (Hsince2 t2 Hin2) as [_ Hfresh].
    destruct (Hinv1 t Ht) as (_ & _ & _ & _ & Hold). lia.
  - intros timer st3 Hfire. apply fire_spec in Hfire.
    destruct Hfire as (t & Hin & _ & Hdue & _ & _ & _ & _ & _ & _ & Hpushed).
    destruct (Hsince2 t Hin) as [Hlate _].
    destruct (Hinv2 t Hin) as (_ & _ & Hsq & Hq & _).
    rewrite Hsq, Hq in Hpushed. unfold Search.DEBOUNCE_MS in Hlate.
    split; [lia|]. split; [exact Hpushed|].
    intros Hnav Heq. apply Hnav. rewrite Hpushed.
    rewrite (proj2 (timerBody_None _ _) Heq). reflexivity.
  - intro Hdiff.
    destruct (Search.timerBody value (Search.query (Search.searchParams st1)))
      as [href|] eqn:Hbody;
      [|apply timerBody_None in Hbody; contradiction].
    exists {| Search.now := Search.now st1 + 500;
              Search.searchParams := Search.searchParams st1;
              Search.searchQuery := value;
              Search.timers := [];
              Search.nextTimer := S (Search.nextTimer st1);
              Search.cleanup := Some (Search.nextTimer st1);
              Search.pushed := href :: Search.pushed st1 |}, href.
    split; [|split; [reflexivity | exact (proj1 (proj2 (proj2 (proj2 (proj2
      (timerBody_Some _ _ _ Hbody))))))]].
    cbn [Search.run]. rewrite Hchange, (runEffect_spec _ Hclr).
    cbn [Search.step Search.now Search.searchParams Search.searchQuery
         Search.timers Search.nextTimer Search.cleanup Search.pushed
         typedState].
    unfold Search.findTimer. cbn [Search.timers find Search.timer_id].
    rewrite Nat.eqb_refl. cbn [Search.due].
    unfold Search.DEBOUNCE_MS.
    destruct (Nat.leb_spec (Search.now st1 + 500) (Search.now st1 + 500)) as [_|Hlt];
      [|lia].
    cbn [Search.clearTimeout Search.now Search.searchParams Search.searchQuery
         Search.timers Search.nextTimer Search.cleanup Search.pushed filter
         Search.timer_id Search.closed_searchQuery Search.closed_query].
    rewrite Nat.eqb_refl, Hbody. reflexivity.
Qed.

Lemma C7_debounced_navigation_witness :
  let url := [("query", "a")] in
  let st1 := Search.mount 0 url in
  let later := [Search.Elapse 300; Search.Change "abc"; Search.Elapse 500] in
  let st2 :=
    {| Search.now := 800;
       Search.searchParams := url;
       Search.searchQuery := "abc";
       Search.timers :=
         [{| Search.timer_id := 2; Search.due := 800;
             Search.closed_searchQuery := "abc";
             Search.closed_query := "a" |}];
       Search.nextTimer := 3;
       Search.cleanup := Some 2%nat;
       Search.pushed := [] |} in
  Search.run (Search.mount 0 url) [] = Some st1
  /\ "ab" <> Search.searchQuery st1
  /\ Search.run st1 (Search.Change "ab" :: later) = Some st2
  /\ (forall t,
         In t (Search.timers st1) ->
         Search.step st2 (Search.Fire (Search.timer_id t)) = None)
  /\ (forall timer st3,
         Search.step st2 (Search.Fire timer) = Some st3 ->
         (Search.now st1 + 500 <= Search.now st2)%nat).
Proof.
  intros url st1 later st2.
  assert (H1 : Search.run (Search.mount 0 url) [] = Some st1) by reflexivity.
  assert (H2 : "ab" <> Search.searchQuery st1) by discriminate.
  assert (H3 : Search.run st1 (Search.Change "ab" :: later) = Some st2)
    by reflexivity.
  destruct (C7_debounced_navigation 0 url [] st1 "ab" later st2 H1 H2 H3)
    as (_ & Hold & Hfire & _).
  split; [exact H1|]. split; [exact H2|]. split; [exact H3|].
  split; [exact Hold|].
  intros timer st3 Hstep. exact (proj1 (Hfire timer st3 Hstep)).
Defined.

(** C9.  In every state that a mounted search page can reach, a timer
    that fires and navigates pushes the search path with the [offset]
    parameter set to ["0"] and with the [query] parameter present exactly
    when the typed query is not empty (and then equal to it); on the URL
    pushed, the query read is the typed one, the offset is 0 and the
    current page is 1. *)
Theorem C9_query_change_resets_offset
    (t0 : nat) (url : URLSearchParams.t)
    (evs : list Search.event) (st : Search.State)
    (timer : nat) (st' : Search.State) :
  Search.run (Search.mount t0 url) evs = Some st ->
  Search.step st (Search.Fire timer) = Some st' ->
  Search.pushed st' <> Search.pushed st ->
  exists href,
    Search.pushed st' = href :: Search.pushed st
    /\ Search.pathname href = "/search"
    /\ URLSearchParams.get "offset" (Search.search href) = Some "0"
    /\ URLSearchParams.get "query" (Search.search href)
       = (if Js.truthy (Search.searchQuery st)
          then Some (Search.searchQuery st) else None)
    /\ Search.query (Search.search href) = Search.searchQuery st
    /\ Search.offset (Search.search href) = Js.Int 0
    /\ Search.currentPage (Search.offset (Search.search href)) = Js.Int 1.
Proof.
  intros Hreach Hfire Hnav.
  pose proof (run_currentTimerOnly _ _ _ (mount_currentTimerOnly t0 url) Hreach)
    as Hinv.
  apply fire_spec in Hfire.
  destruct Hfire as (t & Hin & _ & _ & _ & _ & _ & _ & _ & _ & Hpushed).
  destruct (Hinv t Hin) as (_ & _ & Hsq & _).
  rewrite Hsq in Hpushed.
  destruct (Search.timerBody (Search.searchQuery st) (Search.closed_query t))
    as [href|] eqn:Hbody; [|contradiction].
  destruct (timerBody_Some _ _ _ Hbody) as (_ & Hpath & Hoff & Hq & Hquery & Hzero).
  exists href. repeat (split; [assumption|]).
  rewrite Hzero. apply currentPage_Int.
Qed.

Lemma C9_query_change_resets_offset_witness :
  let url := [("query", "a"); ("offset", "12")] in
  let evs := [Search.Change ""; Search.Elapse 500] in
  let st :=
    {| Search.now := 500;
       Search.searchParams := url;
       Search.searchQuery := "";
       Search.timers :=
         [{| Search.timer_id := 1; Search.due := 500;
             Search.closed_searchQuery := "";
             Search.closed_query := "a" |}];
       Search.nextTimer := 2;
       Search.cleanup := Some 1%nat;
       Search.pushed := [] |} in
  let st' :=
    {| Search.now := 500;
       Search.searchParams := url;
       Search.searchQuery := "";
       Search.timers := [];
       Search.nextTimer := 2;
       Search.cleanup := Some 1%nat;
       Search.pushed :=
         [{| Search.pathname := "/search";
             Search.search := [("offset", "0")] |}] |} in
  Search.run (Search.mount 0 url) evs = Some st
  /\ Search.step st (Search.Fire 1) = Some st'
  /\ Search.pushed st' <> Search.pushed st
  /\ exists href,
       Search.pushed st' = href :: Search.pushed st
       /\ Search.pathname href = "/search"
       /\ URLSearchParams.get "offset" (Search.search href) = Some "0"
       /\ URLSearchParams.get "query" (Search.search href)
          = (if Js.truthy (Search.searchQuery st)
             then Some (Search.searchQuery st) else None)
       /\ Search.query (Search.search href) = Search.searchQuery st
       /\ Search.offset (Search.search href) = Js.Int 0
       /\ Search.currentPage (Search.offset (Search.search href)) = Js.Int 1.
Proof.
  intros url evs st st'.
  assert (H1 : Search.run (Search.mount 0 url) evs = Some st) by reflexivity.
  assert (H2 : Search.step st (Search.Fire 1) = Some st') by reflexivity.
  assert (H3 : Search.pushed st' <> Search.pushed st) by discriminate.
  split; [exact H1|]. split; [exact H2|]. split; [exact H3|].
  exact (C9_query_change_resets_offset 0 url evs st 1%nat st' H1 H2 H3).
Defined.

(* ================================================================== *)
(** * Part III: further properties of the two components *)
(* ================================================================== *)

(** ** The tool panel *)

(** X1.  Whatever [makeRequest] does (resolve with any answer, or throw
    anything, after changing the state in any way), [fetchMCPTools]
    completes normally with the loading flag down and the one-shot flag as
    [makeRequest] left it; what it adds to the calls made by [makeRequest]
    is a single save, a single info notification, or the error log
    followed by the error notification, and never a request. *)
Theorem X1_fetch_always_completes
    (mcpServerUuid : string)
    (makeRequest :
       ToolManagement.ClientRequest -> ToolManagement.RequestOptions ->
       ToolManagement.M (option ToolManagement.ToolsListResponse))
    (w : ToolManagement.World) :
  let w1 :=
    snd (makeRequest {| ToolManagement.method := "tools/list" |}
           {| ToolManagement.suppressToast := true |}
           (snd (ToolManagement.setLoading true w))) in
  exists final calls,
    ToolManagement.fetchMCPTools mcpServerUuid makeRequest w
    = (ToolManagement.Normal tt, final)
    /\ ToolManagement.loading final = false
    /\ ToolManagement.hasInitiallyFetched final
       = ToolManagement.hasInitiallyFetched w1
    /\ ToolManagement.log final = ToolManagement.log w1 ++ calls
    /\ ToolManagement.requests calls = 0%nat
    /\ ((exists saved, calls = [ToolManagement.Mutate mcpServerUuid saved])
        \/ calls = [ToolManagement.ToastInfo "No tools found on MCP server"]
        \/ (exists e,
              calls
              = [ToolManagement.ConsoleError "Error fetching MCP tools:" e;
                 ToolManagement.ToastError
                   "Failed to fetch tools from MCP server"
                   (Some (ToolManagement.thrownText e))])).
Proof.
  intro w1. subst w1. destruct w as [ts ld flag lg].
  cbv [ToolManagement.fetchMCPTools ToolManagement.bind
       ToolManagement.try_catch_finally ToolManagement.setLoading snd
       ToolManagement.mcpTools ToolManagement.loading
       ToolManagement.hasInitiallyFetched ToolManagement.log].
  destruct (makeRequest _ _ _) as [[response | e] [ts1 ld1 flag1 lg1]].
  - destruct response as [[[[|t l]|]]|];
      cbv [ToolManagement.tools ToolManagement.setMcpTools ToolManagement.call
           ToolManagement.mcpTools ToolManagement.loading
           ToolManagement.hasInitiallyFetched ToolManagement.log];
      cbn [List.length Nat.ltb Nat.leb];
      eexists; eexists;
      (split; [reflexivity|]); (split; [reflexivity|]);
      (split; [reflexivity|]); (split; [reflexivity|]);
      (split; [reflexivity|]);
      first [ left; eexists; reflexivity | right; left; reflexivity ].
  - cbv [ToolManagement.setMcpTools ToolManagement.call
         ToolManagement.mcpTools ToolManagement.loading
         ToolManagement.hasInitiallyFetched ToolManagement.log].
    eexists; exists
      [ToolManagement.ConsoleError "Error fetching MCP tools:" e;
       ToolManagement.ToastError "Failed to fetch tools from MCP server"
         (Some (ToolManagement.thrownText e))].
    split; [rewrite <- app_assoc; reflexivity|].
    repeat (split; [reflexivity|]).
    right; right. exists e. reflexivity.
Qed.

(** X2.  What is saved for a tool: its name as it is; its description,
    except that an empty description is saved as none, so a saved
    description is never the empty text; its input schema when it has one,
    and the bare object schema otherwise.  The saved list has the length
    and the names of the remote list, in order. *)
Theorem X2_tool_to_save (tool : ToolManagement.MCPTool)
    (remote : list ToolManagement.MCPTool) :
  ToolManagement.save_name (ToolManagement.toolToSave tool)
  = ToolManagement.name tool
  /\ ToolManagement.save_description (ToolManagement.toolToSave tool)
     <> Some ""
  /\ (forall c s,
         ToolManagement.description tool = Some (String c s) ->
         ToolManagement.save_description (ToolManagement.toolToSave tool)
         = Some (String c s))
  /\ ((ToolManagement.description tool = None
       \/ ToolManagement.description tool = Some "") ->
      ToolManagement.save_description (ToolManagement.toolToSave tool) = None)
  /\ (forall schema,
         ToolManagement.inputSchema tool = Some schema ->
         ToolManagement.save_inputSchema (ToolManagement.toolToSave tool)
         = schema)
  /\ (ToolManagement.inputSchema tool = None ->
      ToolManagement.save_inputSchema (ToolManagement.toolToSave tool)
      = {| ToolManagement.properties := None;
           ToolManagement.required := None |})
  /\ List.length (map ToolManagement.toolToSave remote) = List.length remote
  /\ (forall i,
         option_map ToolManagement.save_name
           (nth_error (map ToolManagement.toolToSave remote) i)
         = option_map ToolManagement.name (nth_error remote i)).
Proof.
  destruct tool as [n d sch]. unfold ToolManagement.toolToSave.
  cbn [ToolManagement.name ToolManagement.description
       ToolManagement.inputSchema ToolManagement.save_name
       ToolManagement.save_description ToolManagement.save_inputSchema].
  split; [reflexivity|]. split.
  { destruct d as [[|c s]|]; cbn; discriminate. }
  split; [intros c s ->; reflexivity|].
  split; [intros [-> | ->]; reflexivity|].
  split; [intros schema ->; reflexivity|].
  split; [intros ->; reflexivity|].
  split; [apply length_map|].
  intro i. rewrite nth_error_map. destruct (nth_error remote i); reflexivity.
Qed.

Lemma X2_tool_to_save_witness :
  let tool :=
    {| ToolManagement.name := "echo";
       ToolManagement.description := Some "";
       ToolManagement.inputSchema := None |} in
  ToolManagement.toolToSave tool
  = {| ToolManagement.save_name := "echo";
       ToolManagement.save_description := None;
       ToolManagement.save_inputSchema :=
         {| ToolManagement.properties := None;
            ToolManagement.required := None |} |}.
Proof.
  intro tool.
  destruct (X2_tool_to_save tool []) as (Hn & _ & _ & Hd & _ & Hs & _).
  specialize (Hd (or_intror eq_refl)). specialize (Hs eq_refl).
  destruct (ToolManagement.toolToSave tool) as [n d s].
  cbn in Hn, Hd, Hs. rewrite Hn, Hd, Hs. reflexivity.
Defined.

(** X3.  After a fetch whose request failed, whatever was displayed
    before, the header shows no remote tool and no "new" badge, the
    Refresh button is enabled, and the help text is present exactly when
    no tool is stored. *)
Theorem X3_header_after_failure
    (mcpServerUuid : string) (e : Js.thrown) (w : ToolManagement.World)
    (dbToolsResponse : option ToolManagement.DbToolsResponse) :
  let final :=
    snd (ToolManagement.fetchMCPTools mcpServerUuid
           (ToolManagement.makeRequest_settling (ToolManagement.Rejected e))
           w) in
  let header := ToolManagement.render final dbToolsResponse in
  ToolManagement.shown_mcp header = 0%nat
  /\ ToolManagement.shown_new header = None
  /\ ToolManagement.refresh_disabled header = false
  /\ ToolManagement.shown_db header
     = List.length (ToolManagement.dbTools dbToolsResponse)
  /\ ToolManagement.help_text header
     = (List.length (ToolManagement.dbTools dbToolsResponse) =? 0)%nat.
Proof.
  intros final header. subst header final.
  rewrite fetchMCPTools_settling. repeat split; reflexivity.
Qed.


(** X5.  The callbacks of the create mutation only notify: both complete
    normally and leave the displayed list, the loading flag and the
    one-shot flag as they are; neither makes a request nor a save, so a
    failed save is reported (console and error notification with the
    error's message) and not tried again. *)
Theorem X5_callbacks_only_notify
    (mcpServerUuid : string) (w : ToolManagement.World)
    (response : ToolManagement.CreateResponse) (e : Js.thrown) :
  (exists final,
      ToolManagement.onSuccess mcpServerUuid response w
      = (ToolManagement.Normal tt, final)
      /\ ToolManagement.mcpTools final = ToolManagement.mcpTools w
      /\ ToolManagement.loading final = ToolManagement.loading w
      /\ ToolManagement.hasInitiallyFetched final
         = ToolManagement.hasInitiallyFetched w
      /\ ToolManagement.requests (ToolManagement.log final)
         = ToolManagement.requests (ToolManagement.log w)
      /\ ToolManagement.mutations (ToolManagement.log final)
         = ToolManagement.mutations (ToolManagement.log w))
  /\ (exists final,
         ToolManagement.onError e w = (ToolManagement.Normal tt, final)
         /\ ToolManagement.mcpTools final = ToolManagement.mcpTools w
         /\ ToolManagement.loading final = ToolManagement.loading w
         /\ ToolManagement.hasInitiallyFetched final
            = ToolManagement.hasInitiallyFetched w
         /\ ToolManagement.log final
            = ToolManagement.log w
              ++ [ToolManagement.ConsoleError "Error saving tools:" e;
                  ToolManagement.ToastError "Failed to save tools"
                    (match e with
                     | Js.Error message => Some message
                     | Js.Other _ => None
                     end)]
         /\ ToolManagement.requests (ToolManagement.log final)
            = ToolManagement.requests (ToolManagement.log w)
         /\ ToolManagement.mutations (ToolManagement.log final)
            = ToolManagement.mutations (ToolManagement.log w)).
Proof.
  unfold ToolManagement.mutations. split.
  - unfold ToolManagement.onSuccess. destruct (ToolManagement.success response).
    + cbv [ToolManagement.bind ToolManagement.getMcpTools ToolManagement.call
           ToolManagement.mcpTools ToolManagement.loading
           ToolManagement.hasInitiallyFetched ToolManagement.log].
      eexists. split; [reflexivity|].
      cbn [ToolManagement.mcpTools ToolManagement.loading
           ToolManagement.hasInitiallyFetched ToolManagement.log].
      rewrite !requests_app, !persisted_app. cbn.
      rewrite !app_nil_r. repeat split; try reflexivity. lia.
    + cbv [ToolManagement.call]. eexists. split; [reflexivity|].
      cbn [ToolManagement.mcpTools ToolManagement.loading
           ToolManagement.hasInitiallyFetched ToolManagement.log].
      rewrite requests_app, persisted_app. cbn.
      rewrite app_nil_r. repeat split; try reflexivity. lia.
  - cbv [ToolManagement.onError ToolManagement.bind ToolManagement.call
         ToolManagement.mcpTools ToolManagement.loading
         ToolManagement.hasInitiallyFetched ToolManagement.log].
    eexists. split; [reflexivity|].
    cbn [ToolManagement.mcpTools ToolManagement.loading
         ToolManagement.hasInitiallyFetched ToolManagement.log].
    rewrite <- app_assoc. rewrite requests_app, persisted_app. cbn.
    rewrite app_nil_r. repeat split; try reflexivity. lia.
Qed.

(** ** The counts of the header *)

Section HeaderCounts.

Import ToolManagement.

Lemma newToolsCount_cons (t : MCPTool) (remote : list MCPTool)
    (stored : list Tool) :
  newToolsCount (t :: remote) stored
  = ((if isNew stored t then 1 else 0) + newToolsCount remote stored)%nat.
Proof.
  unfold newToolsCount, newTools. cbn [filter].
  destruct (isNew stored t); reflexivity.
Qed.

Lemma newToolsCount_le (remote : list MCPTool) (stored : list Tool) :
  (newToolsCount remote stored <= mcpToolCount remote)%nat.
Proof.
  induction remote as [|t remote IH]; [apply Nat.le_refl|].
  rewrite newToolsCount_cons. unfold mcpToolCount in *. cbn [List.length].
  destruct (isNew stored t); lia.
Qed.

Lemma newToolsCount_zero (remote : list MCPTool) (stored : list Tool) :
  newToolsCount remote stored = 0%nat
  <-> (forall t, In t remote -> In (name t) (map tool_name stored)).
Proof.
  induction remote as [|t remote IH].
  - split; [intros _ t [] | reflexivity].
  - rewrite newToolsCount_cons. split.
    + intros H u [<- | Hu].
      * destruct (isNew stored t) eqn:Hnew; [discriminate|].
        destruct (in_dec string_dec (name t) (map tool_name stored))
          as [Hin | Hout]; [exact Hin|].
        apply isNew_absent in Hout. congruence.
      * apply IH; [|exact Hu]. destruct (isNew stored t); lia.
    + intro H.
      destruct (isNew stored t) eqn:Hnew.
      * apply isNew_absent in Hnew. exfalso. apply Hnew, H. left. reflexivity.
      * cbn. apply IH. intros u Hu. apply H. right. exact Hu.
Qed.

Lemma newToolsCount_all (remote : list MCPTool) (stored : list Tool) :
  newToolsCount remote stored = mcpToolCount remote
  <-> (forall t, In t remote -> ~ In (name t) (map tool_name stored)).
Proof.
  induction remote as [|t remote IH].
  - split; [intros _ t [] | reflexivity].
  - rewrite newToolsCount_cons.
    pose proof (newToolsCount_le remote stored) as Hle.
    unfold mcpToolCount in *. cbn [List.length]. split.
    + intros H u [<- | Hu].
      * apply isNew_absent. destruct (isNew stored t); [reflexivity | lia].
      * apply IH; [|exact Hu]. destruct (isNew stored t); lia.
    + intro H.
      assert (Hnew : isNew stored t = true)
        by (apply isNew_absent, H; left; reflexivity).
      rewrite Hnew. cbn. f_equal. apply IH.
      intros u Hu. apply H. right. exact Hu.
Qed.

End HeaderCounts.

(** X6.  The count of new tools is at most the count of remote tools; it
    is zero exactly when every remote tool's name is stored, and it is the
    whole count of remote tools exactly when no remote tool's name is
    stored. *)
Theorem X6_new_count_bounds
    (remote : list ToolManagement.MCPTool) (stored : list ToolManagement.Tool) :
  (ToolManagement.newToolsCount remote stored
   <= ToolManagement.mcpToolCount remote)%nat
  /\ (ToolManagement.newToolsCount remote stored = 0%nat
      <-> (forall t,
              In t remote ->
              In (ToolManagement.name t)
                 (map ToolManagement.tool_name stored)))
  /\ (ToolManagement.newToolsCount remote stored
      = ToolManagement.mcpToolCount remote
      <-> (forall t,
              In t remote ->
              ~ In (ToolManagement.name t)
                  (map ToolManagement.tool_name stored))).
Proof.
  split; [apply newToolsCount_le|].
  split; [apply newToolsCount_zero | apply newToolsCount_all].
Qed.

Lemma X6_new_count_bounds_witness :
  let t :=
    {| ToolManagement.name := "echo"; ToolManagement.description := None;
       ToolManagement.inputSchema := None |} in
  let stored :=
    [{| ToolManagement.tool_name := "echo";
        ToolManagement.tool_description := Some "repeats its input";
        ToolManagement.tool_inputSchema := None |}] in
  ToolManagement.newToolsCount [t; t] stored = 0%nat.
Proof.
  intros t stored.
  apply (proj2 (proj1 (proj2 (X6_new_count_bounds [t; t] stored)))).
  intros u [<- | [<- | []]]; left; reflexivity.
Defined.

(** X7.  While the stored-tools query has no answer, or when its answer
    is not a success (whatever data comes with it), the panel takes the
    stored list as empty: the header shows 0 saved and counts every
    remote tool as new. *)
Theorem X7_no_stored_answer
    (w : ToolManagement.World)
    (dbToolsResponse : option ToolManagement.DbToolsResponse) :
  (dbToolsResponse = None
   \/ exists r,
        dbToolsResponse = Some r /\ ToolManagement.db_success r = false) ->
  let header := ToolManagement.render w dbToolsResponse in
  ToolManagement.dbTools dbToolsResponse = []
  /\ ToolManagement.shown_db header = 0%nat
  /\ ToolManagement.newToolsCount (ToolManagement.mcpTools w)
       (ToolManagement.dbTools dbToolsResponse)
     = List.length (ToolManagement.mcpTools w)
  /\ ToolManagement.shown_new header
     = match ToolManagement.mcpTools w with
       | [] => None
       | _ :: _ => Some (List.length (ToolManagement.mcpTools w))
       end.
Proof.
  intros Hno header.
  assert (Hdb : ToolManagement.dbTools dbToolsResponse = []).
  { destruct Hno as [-> | (r & -> & Hr)]; [reflexivity|].
    unfold ToolManagement.dbTools. rewrite Hr. reflexivity. }
  assert (Hall : ToolManagement.newToolsCount (ToolManagement.mcpTools w) []
                 = List.length (ToolManagement.mcpTools w)).
  { apply (proj2 (newToolsCount_all _ _)). intros t _ []. }
  subst header. unfold ToolManagement.render.
  cbn [ToolManagement.shown_db ToolManagement.shown_new].
  rewrite Hdb, Hall. repeat split; try reflexivity.
  destruct (ToolManagement.mcpTools w); reflexivity.
Qed.

Lemma X7_no_stored_answer_witness :
  let t :=
    {| ToolManagement.name := "echo"; ToolManagement.description := None;
       ToolManagement.inputSchema := None |} in
  let stored :=
    {| ToolManagement.tool_name := "echo";
       ToolManagement.tool_description := None;
       ToolManagement.tool_inputSchema := None |} in
  let w :=
    {| ToolManagement.mcpTools := [t]; ToolManagement.loading := false;
       ToolManagement.hasInitiallyFetched := true;
       ToolManagement.log := [] |} in
  let answer :=
    Some {| ToolManagement.db_success := false;
            ToolManagement.db_data := [stored] |} in
  ToolManagement.shown_db (ToolManagement.render w answer) = 0%nat
  /\ ToolManagement.shown_new (ToolManagement.render w answer) = Some 1%nat.
Proof.
  intros t stored w answer.
  assert (Hno : answer = None
                \/ exists r,
                     answer = Some r /\ ToolManagement.db_success r = false)
    by (right; eexists; split; reflexivity).
  destruct (X7_no_stored_answer w answer Hno) as (_ & Hdb & _ & Hnew).
  split; [exact Hdb | exact Hnew].
Defined.

(** X8.  In every header the "new" badge, when present, shows a positive
    number that is at most the number of remote tools shown; the help
    text is present exactly when nothing is loading, no remote tool is
    displayed and no tool is stored, and then there is no badge. *)
Theorem X8_header_consistent
    (w : ToolManagement.World)
    (dbToolsResponse : option ToolManagement.DbToolsResponse) :
  let header := ToolManagement.render w dbToolsResponse in
  (forall n,
      ToolManagement.shown_new header = Some n ->
      (0 < n <= ToolManagement.shown_mcp header)%nat)
  /\ (ToolManagement.help_text header = true
      <-> ToolManagement.loading w = false
          /\ ToolManagement.mcpTools w = []
          /\ ToolManagement.dbTools dbToolsResponse = [])
  /\ (ToolManagement.help_text header = true ->
      ToolManagement.shown_new header = None).
Proof.
  intro header. subst header. unfold ToolManagement.render.
  cbn [ToolManagement.shown_new ToolManagement.shown_mcp
       ToolManagement.help_text].
  pose proof (newToolsCount_le (ToolManagement.mcpTools w)
                (ToolManagement.dbTools dbToolsResponse)) as Hle.
  assert (Hhelp :
    negb (ToolManagement.loading w)
    && (ToolManagement.mcpToolCount (ToolManagement.mcpTools w) =? 0)%nat
    && (ToolManagement.dbToolCount (ToolManagement.dbTools dbToolsResponse)
        =? 0)%nat = true
    <-> ToolManagement.loading w = false
        /\ ToolManagement.mcpTools w = []
        /\ ToolManagement.dbTools dbToolsResponse = []).
  { rewrite !andb_true_iff, negb_true_iff, !Nat.eqb_eq.
    unfold ToolManagement.mcpToolCount, ToolManagement.dbToolCount.
    rewrite !length_zero_iff_nil. tauto. }
  split; [|split; [exact Hhelp|]].
  - intros n.
    destruct (Nat.ltb_spec 0
                (ToolManagement.newToolsCount (ToolManagement.mcpTools w)
                   (ToolManagement.dbTools dbToolsResponse)));
      [|discriminate].
    intros [= <-]. lia.
  - intro H. apply Hhelp in H. destruct H as (_ & Hnil & _).
    rewrite Hnil. reflexivity.
Qed.

Lemma X8_header_consistent_witness :
  let t :=
    {| ToolManagement.name := "echo"; ToolManagement.description := None;
       ToolManagement.inputSchema := None |} in
  let w :=
    {| ToolManagement.mcpTools := [t]; ToolManagement.loading := false;
       ToolManagement.hasInitiallyFetched := true;
       ToolManagement.log := [] |} in
  ToolManagement.shown_new (ToolManagement.render w None) = Some 1%nat
  /\ (0 < 1 <= ToolManagement.shown_mcp (ToolManagement.render w None))%nat.
Proof.
  intros t w.
  assert (Hnew : ToolManagement.shown_new (ToolManagement.render w None)
                 = Some 1%nat) by reflexivity.
  split; [exact Hnew|].
  exact (proj1 (X8_header_consistent w None) 1%nat Hnew).
Defined.

(** ** The search page: pages and offsets *)

Section Paging.

Import Search.

Lemma occurrences_delete (name : string) (p : URLSearchParams.t) :
  occurrences name (URLSearchParams.delete name p) = 0%nat.
Proof.
  unfold occurrences, URLSearchParams.delete.
  induction p as [|[k v] p IH]; [reflexivity|].
  cbn [filter fst]. destruct (String.eqb k name) eqn:Hk; cbn [negb].
  - exact IH.
  - cbn [filter fst]. rewrite Hk. exact IH.
Qed.

Lemma occurrences_set (name value : string) (p : URLSearchParams.t) :
  occurrences name (URLSearchParams.set name value p) = 1%nat.
Proof.
  induction p as [|[k v] p IH]; cbn [URLSearchParams.set].
  - unfold occurrences. cbn [filter fst]. rewrite String.eqb_refl. reflexivity.
  - destruct (String.eqb k name) eqn:Hk.
    + unfold occurrences. cbn [filter fst]. rewrite String.eqb_refl.
      cbn [List.length]. f_equal. apply occurrences_delete.
    + unfold occurrences in *. cbn [filter fst]. rewrite Hk. exact IH.
Qed.

Lemma div6_bounds (z : Z) : 6 * (z / 6) <= z < 6 * (z / 6) + 6.
Proof.
  pose proof (Z.div_mod z 6) as Hdiv.
  pose proof (Z.mod_pos_bound z 6) as Hmod. lia.
Qed.

Lemma totalPages_bounds (n : Z) :
  6 * (totalPages n - 1) < n <= 6 * totalPages n.
Proof.
  rewrite totalPages_div. pose proof (div6_bounds (- n)). lia.
Qed.

End Paging.

(** X9.  [handlePageChange] keeps every parameter of the URL other than
    [offset] (the query in particular), and the URL it pushes has exactly
    one [offset] parameter, however many the URL had. *)
Theorem X9_page_change_keeps_parameters
    (searchParams : URLSearchParams.t) (page : Z) :
  let href := Search.handlePageChange searchParams page in
  (forall name,
      name <> "offset" ->
      URLSearchParams.get name (Search.search href)
      = URLSearchParams.get name searchParams)
  /\ Search.query (Search.search href) = Search.query searchParams
  /\ Search.occurrences "offset" (Search.search href) = 1%nat.
Proof.
  intro href. subst href. unfold Search.handlePageChange.
  cbn [Search.search]. unfold URLSearchParams.copy.
  split; [intros name Hname; apply get_set_other; exact Hname|].
  split; [|apply occurrences_set].
  unfold Search.query. rewrite get_set_other by discriminate. reflexivity.
Qed.

Lemma X9_page_change_keeps_parameters_witness :
  let url := [("offset", "0"); ("query", "db"); ("offset", "12")] in
  URLSearchParams.get "query" (Search.search (Search.handlePageChange url 2))
  = Some "db"
  /\ Search.occurrences "offset"
       (Search.search (Search.handlePageChange url 2)) = 1%nat.
Proof.
  intro url.
  destruct (X9_page_change_keeps_parameters url 2) as (Hkeep & _ & Hone).
  split; [|exact Hone].
  rewrite (Hkeep "query"); [reflexivity | discriminate].
Defined.

(** X10.  When the offset lies within the results ([0 <= offset < total])
    and the total is a safe integer, the current page is at least 1 and at
    most the number of pages. *)
Theorem X10_page_within_total (offset total : Z) :
  0 <= offset < total ->
  Js.safeInteger total ->
  exists page,
    Search.currentPage (Js.Int offset) = Js.Int page
    /\ 1 <= page <= Search.totalPages total.
Proof.
  intros Hrange _. exists (offset / 6 + 1).
  split; [apply currentPage_Int|].
  pose proof (div6_bounds offset). pose proof (totalPages_bounds total). lia.
Qed.

Lemma X10_page_within_total_witness :
  0 <= 12 < 13
  /\ Js.safeInteger 13
  /\ exists page,
       Search.currentPage (Js.Int 12) = Js.Int page
       /\ 1 <= page <= Search.totalPages 13.
Proof.
  assert (Hrange : 0 <= 12 < 13) by lia.
  assert (Hsafe : Js.safeInteger 13) by (split; vm_compute; discriminate).
  split; [exact Hrange|]. split; [exact Hsafe|].
  exact (X10_page_within_total 12 13 Hrange Hsafe).
Defined.

(** X11.  For an offset and a total that are safe integers, the page
    numbers are not clamped: the current page is at least
    1 exactly when the offset is not negative, and it exceeds the number
    of pages exactly when the offset is [6 * totalPages] or more (past
    the span of the last page); with no result there are 0 pages while
    offset 0 is page 1, and with at least one result there is at least one
    page. *)
Theorem X11_page_not_clamped (offset total : Z) :
  Js.safeInteger offset -> Js.safeInteger total ->
  Search.currentPage (Js.Int offset) = Js.Int (offset / 6 + 1)
  /\ (1 <= offset / 6 + 1 <-> 0 <= offset)
  /\ (Search.totalPages total < offset / 6 + 1
      <-> 6 * Search.totalPages total <= offset)
  /\ Search.totalPages 0 = 0
  /\ Search.currentPage (Js.Int 0) = Js.Int 1
  /\ (0 < total <-> 1 <= Search.totalPages total).
Proof.
  intros _ _.
  pose proof (div6_bounds offset) as Ho.
  pose proof (totalPages_bounds total) as Ht.
  split; [apply currentPage_Int|].
  split; [lia|]. split; [lia|].
  split; [reflexivity|]. split; [reflexivity|]. lia.
Qed.

Lemma X11_page_not_clamped_witness :
  Js.safeInteger 18 /\ Js.safeInteger 13
  /\ Search.totalPages 13 < 18 / 6 + 1
  /\ Search.currentPage (Js.Int 18) = Js.Int (18 / 6 + 1).
Proof.
  assert (H18 : Js.safeInteger 18) by (split; vm_compute; discriminate).
  assert (H13 : Js.safeInteger 13) by (split; vm_compute; discriminate).
  destruct (X11_page_not_clamped 18 13 H18 H13) as (Hpage & _ & Hpast & _).
  split; [exact H18|]. split; [exact H13|]. split; [|exact Hpage].
  apply Hpast. vm_compute. discriminate.
Defined.

(** X12.  On a URL whose offset is the safe integer [o], asking for the
    page [k] pages after the current one, when the offset of that page is
    a safe integer too, sets the offset to
    [6 * floor(o / 6) + 6 * k]: the offset is first rounded down to a
    page boundary (asking for the current page realigns a misaligned
    offset, by less than 6, and keeps the page), then moved by whole
    pages; the page derived afterwards is the one asked for. *)
Theorem X12_page_steps
    (searchParams : URLSearchParams.t) (o k : Z) :
  Search.offset searchParams = Js.Int o ->
  Js.safeInteger o ->
  Js.safeInteger (6 * (o / 6) + 6 * k) ->
  let current := o / 6 + 1 in
  let href := Search.handlePageChange searchParams (current + k) in
  Search.currentPage (Search.offset searchParams) = Js.Int current
  /\ Search.offset (Search.search href) = Js.Int (6 * (o / 6) + 6 * k)
  /\ Search.currentPage (Search.offset (Search.search href))
     = Js.Int (current + k)
  /\ (k = 0 ->
      exists o',
        Search.offset (Search.search href) = Js.Int o'
        /\ o - 6 < o' <= o /\ o' mod 6 = 0).
Proof.
  intros Ho _ _ current href.
  assert (Hget : URLSearchParams.get "offset" (Search.search href)
                 = Some (Js.toString ((current + k - 1) * 6)))
    by apply get_set_same.
  assert (Hoff : Search.offset (Search.search href)
                 = Js.Int (6 * (o / 6) + 6 * k)).
  { rewrite (offset_of_text _ _ Hget). f_equal. subst current. lia. }
  split; [rewrite Ho; apply currentPage_Int|].
  split; [exact Hoff|]. split.
  - rewrite Hoff, currentPage_Int. f_equal. subst current.
    replace (6 * (o / 6) + 6 * k) with ((o / 6 + k) * 6) by lia.
    rewrite Z.div_mul by lia. lia.
  - intros ->. exists (6 * (o / 6)).
    split; [rewrite Hoff; f_equal; lia|].
    pose proof (div6_bounds o). split; [lia|].
    rewrite Z.mul_comm. apply Z.mod_mul. lia.
Qed.

Lemma X12_page_steps_witness :
  let url := [("query", "db"); ("offset", "7")] in
  Search.offset url = Js.Int 7
  /\ Js.safeInteger 7
  /\ Js.safeInteger (6 * (7 / 6) + 6 * 1)
  /\ Search.offset (Search.search (Search.handlePageChange url (7 / 6 + 1 + 1)))
     = Js.Int (6 * (7 / 6) + 6 * 1).
Proof.
  intro url.
  assert (Ho : Search.offset url = Js.Int 7) by reflexivity.
  assert (H7 : Js.safeInteger 7) by (split; vm_compute; discriminate).
  assert (H12 : Js.safeInteger (6 * (7 / 6) + 6 * 1))
    by (split; vm_compute; discriminate).
  split; [exact Ho|]. split; [exact H7|]. split; [exact H12|].
  exact (proj1 (proj2 (X12_page_steps url 7 1 Ho H7 H12))).
Defined.

(** X13.  A URL without an [offset] parameter, or with an empty one, is
    read as offset 0 and shows page 1; a URL without a [query] parameter,
    or with an empty one, is read as the empty query; and a non-empty
    query is read as it is. *)
Theorem X13_url_defaults (searchParams : URLSearchParams.t) :
  ((URLSearchParams.get "offset" searchParams = None
    \/ URLSearchParams.get "offset" searchParams = Some "") ->
   Search.offset searchParams = Js.Int 0
   /\ Search.currentPage (Search.offset searchParams) = Js.Int 1)
  /\ ((URLSearchParams.get "query" searchParams = None
       \/ URLSearchParams.get "query" searchParams = Some "") ->
      Search.query searchParams = "")
  /\ (forall c s,
         URLSearchParams.get "query" searchParams = Some (String c s) ->
         Search.query searchParams = String c s).
Proof.
  split; [|split].
  - intros [H | H]; unfold Search.offset; rewrite H; split; reflexivity.
  - intros [H | H]; unfold Search.query; rewrite H; reflexivity.
  - intros c s H. unfold Search.query. rewrite H. reflexivity.
Qed.

Lemma X13_url_defaults_witness :
  Search.offset [("query", "db")] = Js.Int 0
  /\ Search.currentPage (Search.offset [("query", "db")]) = Js.Int 1.
Proof.
  apply (proj1 (X13_url_defaults [("query", "db")])). left. reflexivity.
Defined.

(** X14.  The query function gives data exactly when the fetch resolved
    with an OK answer whose JSON body resolved to that data; a rejected
    fetch is passed on as it is, and an answer that is not OK gives an
    error whatever its body holds. *)
Theorem X14_query_function
    (fetched : Js.thrown + Search.Response)
    (data : Search.PaginatedSearchResult) :
  (Search.queryFn fetched = inr data
   <-> exists res,
         fetched = inr res /\ Search.ok res = true
         /\ Search.json res = inr data)
  /\ (forall e, fetched = inl e -> Search.queryFn fetched = inl e)
  /\ (forall res,
         fetched = inr res -> Search.ok res = false ->
         exists message, Search.queryFn fetched = inl (Js.Error message)).
Proof.
  split; [|split].
  - split.
    + destruct fetched as [e | res]; cbn [Search.queryFn]; [discriminate|].
      destruct (Search.ok res) eqn:Hok; cbn [negb]; [|discriminate].
      intro H. exists res. repeat split; assumption.
    + intros (res & -> & Hok & Hjson). cbn [Search.queryFn].
      rewrite Hok. exact Hjson.
  - intros e ->. reflexivity.
  - intros res -> Hok. cbn [Search.queryFn]. rewrite Hok.
    eexists. reflexivity.
Qed.

Lemma X14_query_function_witness :
  let data := {| Search.total := 1; Search.results := Some ["a"] |} in
  exists message,
    Search.queryFn
      (inr {| Search.ok := false; Search.status := 500;
              Search.statusText := "Internal Server Error";
              Search.text := "{}"; Search.json := inr data |})
    = inl (Js.Error message).
Proof.
  intro data.
  exact (proj2 (proj2 (X14_query_function
                         (inr {| Search.ok := false; Search.status := 500;
                                 Search.statusText := "Internal Server Error";
                                 Search.text := "{}";
                                 Search.json := inr data |}) data))
           _ eq_refl eq_refl).
Defined.

(** ** The search page: the debounce effect over time *)

Section DebounceOverTime.

Import Search.

(** A pending timer is due within the debounce delay. *)
Lemma step_due_soon (st st' : State) (ev : event) :
  currentTimerOnly st ->
  (forall t, In t (timers st) -> (due t <= now st + DEBOUNCE_MS)%nat) ->
  step st ev = Some st' ->
  forall t, In t (timers st') -> (due t <= now st' + DEBOUNCE_MS)%nat.
Proof.
  intros Hinv Hsoon Hstep.
  pose proof (currentTimerOnly_cleared st Hinv) as Hclr.
  destruct ev as [value | url | ms | timer].
  - cbn [step] in Hstep. destruct (String.eqb value (searchQuery st)).
    + injection Hstep as <-. exact Hsoon.
    + injection Hstep as <-.
      rewrite runEffect_spec by exact Hclr.
      intros t [<- | []]. cbn. apply Nat.le_refl.
  - cbn [step] in Hstep.
    destruct (String.eqb (query url) (query (searchParams st))).
    + injection Hstep as <-. exact Hsoon.
    + injection Hstep as <-.
      rewrite runEffect_spec by exact Hclr.
      intros t [<- | []]. cbn. apply Nat.le_refl.
  - injection Hstep as <-. cbn. intros t Ht. specialize (Hsoon t Ht). lia.
  - apply fire_spec in Hstep.
    destruct Hstep as (t0 & _ & _ & _ & Hnow & _ & _ & _ & _ & Htimers & _).
    intros t Ht. rewrite Htimers in Ht. apply filter_In in Ht.
    rewrite Hnow. apply Hsoon. exact (proj1 Ht).
Qed.

Lemma run_due_soon (evs : list event) (st st' : State) :
  currentTimerOnly st ->
  (forall t, In t (timers st) -> (due t <= now st + DEBOUNCE_MS)%nat) ->
  run st evs = Some st' ->
  forall t, In t (timers st') -> (due t <= now st' + DEBOUNCE_MS)%nat.
Proof.
  revert st. induction evs as [|ev evs IH]; intros st Hinv Hsoon Hrun.
  - injection Hrun as <-. exact Hsoon.
  - cbn [run] in Hrun. destruct (step st ev) as [st1|] eqn:Hstep;
      [|discriminate].
    exact (IH st1 (step_currentTimerOnly _ _ _ Hinv Hstep)
             (step_due_soon _ _ _ Hinv Hsoon Hstep) Hrun).
Qed.

(** While the typed text and the URL's query are both [q], a quiet event
    keeps them so and pushes nothing. *)
Lemma step_quiet (q : string) (st st' : State) (ev : event) :
  currentTimerOnly st ->
  searchQuery st = q -> query (searchParams st) = q ->
  quiet q ev = true -> step st ev = Some st' ->
  pushed st' = pushed st
  /\ searchQuery st' = q /\ query (searchParams st') = q.
Proof.
  intros Hinv Hsq Hq Hquiet Hstep.
  destruct ev as [value | url | ms | timer]; cbn [quiet] in Hquiet.
  - apply String.eqb_eq in Hquiet. subst value.
    cbn [step] in Hstep. rewrite <- Hsq, String.eqb_refl in Hstep.
    injection Hstep as <-. rewrite Hsq in *. repeat split; assumption.
  - apply String.eqb_eq in Hquiet.
    cbn [step] in Hstep. rewrite Hq, Hquiet, String.eqb_refl in Hstep.
    injection Hstep as <-. cbn. repeat split; assumption.
  - injection Hstep as <-. cbn. repeat split; assumption.
  - apply fire_spec in Hstep.
    destruct Hstep as (t & Hin & _ & _ & _ & Hsp & Hsq' & _ & _ & _ & Hpushed).
    destruct (Hinv t Hin) as (_ & _ & Hcsq & Hcq & _).
    rewrite Hcsq, Hcq, Hsq, Hq in Hpushed.
    rewrite (proj2 (timerBody_None q q) eq_refl) in Hpushed.
    rewrite Hsp, Hsq'. repeat split; assumption.
Qed.

Lemma run_quiet (q : string) (evs : list event) (st st' : State) :
  currentTimerOnly st ->
  searchQuery st = q -> query (searchParams st) = q ->
  forallb (quiet q) evs = true -> run st evs = Some st' ->
  pushed st' = pushed st
  /\ searchQuery st' = q /\ query (searchParams st') = q.
Proof.
  revert st. induction evs as [|ev evs IH]; intros st Hinv Hsq Hq Hquiet Hrun.
  - injection Hrun as <-. repeat split; assumption.
  - cbn [forallb] in Hquiet. apply andb_true_iff in Hquiet.
    destruct Hquiet as [Hev Hevs].
    cbn [run] in Hrun. destruct (step st ev) as [st1|] eqn:Hstep;
      [|discriminate].
    destruct (step_quiet q st st1 ev Hinv Hsq Hq Hev Hstep)
      as (Hp1 & Hsq1 & Hq1).
    destruct (IH st1 (step_currentTimerOnly _ _ _ Hinv Hstep) Hsq1 Hq1
                Hevs Hrun) as (Hp & Hsq' & Hq').
    rewrite Hp, Hp1. repeat split; assumption.
Qed.

(** What a URL change to a new query does to a page in a reachable
    state, followed by the delay and the firing of the timer it set. *)
Lemma navigate_then_fire (st : State) (url : URLSearchParams.t) :
  currentTimerOnly st ->
  query url <> query (searchParams st) ->
  run st [Navigate url; Elapse 500; Fire (nextTimer st)]
  = Some {| now := now st + 500; searchParams := url;
            searchQuery := searchQuery st; timers := [];
            nextTimer := S (nextTimer st);
            cleanup := Some (nextTimer st);
            pushed :=
              match timerBody (searchQuery st) (query url) with
              | Some href => href :: pushed st
              | None => pushed st
              end |}.
Proof.
  intros Hinv Hq.
  pose proof (currentTimerOnly_cleared st Hinv) as Hclr.
  set (moved :=
         {| now := now st; searchParams := url;
            searchQuery := searchQuery st; timers := timers st;
            nextTimer := nextTimer st; cleanup := cleanup st;
            pushed := pushed st |}).
  assert (Hclr' : clearedByCleanup moved) by exact Hclr.
  cbn [run step].
  destruct (String.eqb_spec (query url) (query (searchParams st)));
    [contradiction|].
  fold moved. rewrite (runEffect_spec _ Hclr').
  cbn [now searchParams searchQuery timers nextTimer cleanup pushed moved].
  unfold findTimer. cbn [timers find timer_id].
  rewrite Nat.eqb_refl. cbn [due]. unfold DEBOUNCE_MS.
  destruct (Nat.leb_spec (now st + 500) (now st + 500)) as [_|Hlt]; [|lia].
  cbn [clearTimeout now searchParams searchQuery timers nextTimer cleanup
       pushed filter timer_id closed_searchQuery closed_query].
  rewrite Nat.eqb_refl. reflexivity.
Qed.

End DebounceOverTime.

(** X15.  In every state that a mounted search page can reach, at most
    one timer is pending; a pending timer is the one that the cleanup of
    the last effect run will clear, and it is due within 500 ms. *)
Theorem X15_one_pending_timer
    (t0 : nat) (url : URLSearchParams.t)
    (evs : list Search.event) (st : Search.State) :
  Search.run (Search.mount t0 url) evs = Some st ->
  (List.length (Search.timers st) <= 1)%nat
  /\ (forall t,
         In t (Search.timers st) ->
         Search.cleanup st = Some (Search.timer_id t)
         /\ (Search.due t <= Search.now st + 500)%nat
         /\ (Search.timer_id t < Search.nextTimer st)%nat).
Proof.
  intro Hreach.
  pose proof (run_currentTimerOnly _ _ _ (mount_currentTimerOnly t0 url) Hreach)
    as Hinv.
  assert (Hsoon0 : forall t,
             In t (Search.timers (Search.mount t0 url)) ->
             (Search.due t
              <= Search.now (Search.mount t0 url) + Search.DEBOUNCE_MS)%nat)
    by (intros t [<- | []]; apply Nat.le_refl).
  pose proof (run_due_soon _ _ _ (mount_currentTimerOnly t0 url) Hsoon0 Hreach)
    as Hsoon.
  split.
  - destruct (Search.timers st) as [|t ts] eqn:Hts; [cbn; lia|].
    destruct (Hinv t) as (Hone & _); [rewrite Hts; left; reflexivity|].
    rewrite Hts in Hone. injection Hone as ->. cbn. lia.
  - intros t Ht. destruct (Hinv t Ht) as (_ & Hc & _ & _ & Hfresh).
    split; [exact Hc|]. split; [exact (Hsoon t Ht) | exact Hfresh].
Qed.

Lemma X15_one_pending_timer_witness :
  let evs :=
    [Search.Change "a"; Search.Elapse 100; Search.Change "ab";
     Search.Elapse 100; Search.Navigate [("query", "zz")];
     Search.Change "abc"] in
  let st :=
    {| Search.now := 200; Search.searchParams := [("query", "zz")];
       Search.searchQuery := "abc";
       Search.timers :=
         [{| Search.timer_id := 4; Search.due := 700;
             Search.closed_searchQuery := "abc";
             Search.closed_query := "zz" |}];
       Search.nextTimer := 5; Search.cleanup := Some 4%nat;
       Search.pushed := [] |} in
  Search.run (Search.mount 0 []) evs = Some st
  /\ (List.length (Search.timers st) <= 1)%nat.
Proof.
  intros evs st.
  assert (Hrun : Search.run (Search.mount 0 []) evs = Some st) by reflexivity.
  split; [exact Hrun|].
  exact (proj1 (X15_one_pending_timer 0 [] evs st Hrun)).
Defined.

(** X16.  While the typed text and the URL's query are the same text, the
    page never navigates on its own: from a reachable state in which they
    agree, through time passing, timers firing, URL changes that keep the
    query (page changes) and input events that give the same text again,
    nothing is pushed.  A freshly mounted page is in such a state. *)
Theorem X16_settled_page_is_quiet
    (t0 : nat) (url : URLSearchParams.t)
    (evs : list Search.event) (st : Search.State)
    (evs' : list Search.event) (st' : Search.State) :
  Search.run (Search.mount t0 url) evs = Some st ->
  Search.searchQuery st = Search.query (Search.searchParams st) ->
  forallb (Search.quiet (Search.searchQuery st)) evs' = true ->
  Search.run st evs' = Some st' ->
  Search.pushed st' = Search.pushed st
  /\ Search.searchQuery st' = Search.searchQuery st
  /\ Search.query (Search.searchParams st') = Search.searchQuery st
  /\ Search.searchQuery (Search.mount t0 url)
     = Search.query (Search.searchParams (Search.mount t0 url))
  /\ Search.pushed (Search.mount t0 url) = [].
Proof.
  intros Hreach Hagree Hquiet Hrun.
  pose proof (run_currentTimerOnly _ _ _ (mount_currentTimerOnly t0 url) Hreach)
    as Hinv.
  destruct (run_quiet _ _ _ _ Hinv eq_refl (eq_sym Hagree) Hquiet Hrun)
    as (Hp & Hsq & Hq).
  repeat split; assumption || reflexivity.
Qed.

Lemma X16_settled_page_is_quiet_witness :
  let url := [("query", "db"); ("offset", "6")] in
  let evs' :=
    [Search.Elapse 500; Search.Fire 0;
     Search.Navigate [("query", "db"); ("offset", "12")];
     Search.Change "db"; Search.Elapse 1000] in
  let st' :=
    {| Search.now := 1500;
       Search.searchParams := [("query", "db"); ("offset", "12")];
       Search.searchQuery := "db"; Search.timers := [];
       Search.nextTimer := 1; Search.cleanup := Some 0%nat;
       Search.pushed := [] |} in
  Search.run (Search.mount 0 url) evs' = Some st'
  /\ Search.pushed st' = [].
Proof.
  intros url evs' st'.
  assert (Hrun : Search.run (Search.mount 0 url) evs' = Some st')
    by reflexivity.
  split; [exact Hrun|].
  exact (proj1 (X16_settled_page_is_quiet 0 url [] (Search.mount 0 url)
                  evs' st' eq_refl eq_refl eq_refl Hrun)).
Defined.

(** X17.  A debounced navigation settles: once the URL that a firing
    timer pushed has been taken, the typed text and the URL's query agree,
    and as long as they are left alone (time, timers, page changes)
    nothing more is pushed. *)
Theorem X17_navigation_settles
    (t0 : nat) (url : URLSearchParams.t)
    (evs : list Search.event) (st : Search.State)
    (timer : nat) (st1 : Search.State) (href : Search.Href)
    (evs' : list Search.event) (st2 : Search.State) :
  Search.run (Search.mount t0 url) evs = Some st ->
  Search.step st (Search.Fire timer) = Some st1 ->
  Search.pushed st1 = href :: Search.pushed st ->
  forallb (Search.quiet (Search.searchQuery st)) evs' = true ->
  Search.run st1 (Search.Navigate (Search.search href) :: evs') = Some st2 ->
  Search.query (Search.search href) = Search.searchQuery st
  /\ Search.pushed st2 = href :: Search.pushed st
  /\ Search.searchQuery st2 = Search.query (Search.searchParams st2).
Proof.
  intros Hreach Hfire Hpush Hquiet Hrun.
  pose proof (run_currentTimerOnly _ _ _ (mount_currentTimerOnly t0 url) Hreach)
    as Hinv.
  pose proof (step_currentTimerOnly _ _ _ Hinv Hfire) as Hinv1.
  pose proof Hfire as Hspec. apply fire_spec in Hspec.
  destruct Hspec as (t & Hin & _ & _ & _ & _ & Hsq1 & _ & _ & _ & Hpushed).
  destruct (Hinv t Hin) as (_ & _ & Hcsq & _).
  rewrite Hcsq in Hpushed.
  destruct (Search.timerBody (Search.searchQuery st) (Search.closed_query t))
    as [href'|] eqn:Hbody.
  - rewrite Hpushed in Hpush. injection Hpush as ->.
    destruct (timerBody_Some _ _ _ Hbody) as (_ & _ & _ & _ & Hquery & _).
    cbn [Search.run] in Hrun.
    destruct (Search.step st1 (Search.Navigate (Search.search href)))
      as [st1'|] eqn:Hnav; [|discriminate].
    pose proof (step_currentTimerOnly _ _ _ Hinv1 Hnav) as Hinv1'.
    assert (Hst1' : Search.pushed st1' = Search.pushed st1
                    /\ Search.searchQuery st1' = Search.searchQuery st
                    /\ Search.query (Search.searchParams st1')
                       = Search.searchQuery st).
    { cbn [Search.step] in Hnav.
      destruct (String.eqb (Search.query (Search.search href))
                  (Search.query (Search.searchParams st1))).
      - injection Hnav as <-. cbn. repeat split; assumption.
      - injection Hnav as <-.
        rewrite runEffect_spec
          by exact (currentTimerOnly_cleared _ Hinv1).
        cbn. repeat split; assumption. }
    destruct Hst1' as (Hp1' & Hsq1' & Hq1').
    destruct (run_quiet _ _ _ _ Hinv1' Hsq1' Hq1' Hquiet Hrun)
      as (Hp2 & Hsq2 & Hq2).
    split; [exact Hquery|]. split; [|congruence].
    rewrite Hp2, Hp1', Hpushed. reflexivity.
  - exfalso. rewrite Hpushed in Hpush.
    apply (f_equal (@List.length _)) in Hpush. cbn in Hpush. lia.
Qed.

Lemma X17_navigation_settles_witness :
  let href :=
    {| Search.pathname := "/search";
       Search.search := [("query", "db"); ("offset", "0")] |} in
  let st :=
    {| Search.now := 500; Search.searchParams := [];
       Search.searchQuery := "db";
       Search.timers :=
         [{| Search.timer_id := 1; Search.due := 500;
             Search.closed_searchQuery := "db";
             Search.closed_query := "" |}];
       Search.nextTimer := 2; Search.cleanup := Some 1%nat;
       Search.pushed := [] |} in
  let st1 :=
    {| Search.now := 500; Search.searchParams := [];
       Search.searchQuery := "db"; Search.timers := [];
       Search.nextTimer := 2; Search.cleanup := Some 1%nat;
       Search.pushed := [href] |} in
  let st2 :=
    {| Search.now := 1500; Search.searchParams := Search.search href;
       Search.searchQuery := "db"; Search.timers := [];
       Search.nextTimer := 3; Search.cleanup := Some 2%nat;
       Search.pushed := [href] |} in
  let later := [Search.Elapse 500; Search.Fire 2; Search.Elapse 500] in
  Search.run (Search.mount 0 []) [Search.Change "db"; Search.Elapse 500]
  = Some st
  /\ Search.step st (Search.Fire 1) = Some st1
  /\ Search.pushed st1 = href :: Search.pushed st
  /\ Search.run st1 (Search.Navigate (Search.search href) :: later) = Some st2
  /\ Search.pushed st2 = href :: Search.pushed st.
Proof.
  intros href st st1 st2 later.
  assert (H1 : Search.run (Search.mount 0 [])
                 [Search.Change "db"; Search.Elapse 500] = Some st)
    by reflexivity.
  assert (H2 : Search.step st (Search.Fire 1) = Some st1) by reflexivity.
  assert (H3 : Search.pushed st1 = href :: Search.pushed st) by reflexivity.
  assert (H4 : forallb (Search.quiet (Search.searchQuery st)) later = true)
    by reflexivity.
  assert (H5 : Search.run st1 (Search.Navigate (Search.search href) :: later)
               = Some st2) by reflexivity.
  split; [exact H1|]. split; [exact H2|]. split; [exact H3|].
  split; [exact H5|].
  exact (proj1 (proj2
    (X17_navigation_settles 0 [] [Search.Change "db"; Search.Elapse 500] st
       1%nat st1 href later st2 H1 H2 H3 H4 H5))).
Defined.

(** X18.  The typed text is not brought in line with the URL: when the
    URL's query changes to a text other than the typed one (a link, the
    back button) and nothing else happens for 500 ms, the timer set by
    that change fires and pushes the typed text back as the query, with
    offset 0. *)
Theorem X18_url_change_is_overridden
    (t0 : nat) (url : URLSearchParams.t)
    (evs : list Search.event) (st : Search.State)
    (url' : URLSearchParams.t) :
  Search.run (Search.mount t0 url) evs = Some st ->
  Search.query url' <> Search.query (Search.searchParams st) ->
  Search.query url' <> Search.searchQuery st ->
  exists st' href,
    Search.run st
      [Search.Navigate url'; Search.Elapse 500;
       Search.Fire (Search.nextTimer st)] = Some st'
    /\ Search.searchQuery st' = Search.searchQuery st
    /\ Search.pushed st' = href :: Search.pushed st
    /\ Search.query (Search.search href) = Search.searchQuery st
    /\ Search.offset (Search.search href) = Js.Int 0.
Proof.
  intros Hreach Hmoved Hother.
  pose proof (run_currentTimerOnly _ _ _ (mount_currentTimerOnly t0 url) Hreach)
    as Hinv.
  destruct (Search.timerBody (Search.searchQuery st) (Search.query url'))
    as [href|] eqn:Hbody;
    [|apply timerBody_None in Hbody; congruence].
  destruct (timerBody_Some _ _ _ Hbody) as (_ & _ & _ & _ & Hquery & Hzero).
  eexists. exists href.
  split; [rewrite (navigate_then_fire st url' Hinv Hmoved), Hbody; reflexivity|].
  cbn. repeat split; assumption || reflexivity.
Qed.

Lemma X18_url_change_is_overridden_witness :
  let url := [("query", "db")] in
  let st := Search.mount 0 url in
  Search.query [("query", "cache")] <> Search.query (Search.searchParams st)
  /\ Search.query [("query", "cache")] <> Search.searchQuery st
  /\ exists st' href,
       Search.run st
         [Search.Navigate [("query", "cache")]; Search.Elapse 500;
          Search.Fire (Search.nextTimer st)] = Some st'
       /\ Search.searchQuery st' = Search.searchQuery st
       /\ Search.pushed st' = href :: Search.pushed st
       /\ Search.query (Search.search href) = Search.searchQuery st
       /\ Search.offset (Search.search href) = Js.Int 0.
Proof.
  intros url st.
  assert (H1 : Search.query [("query", "cache")]
               <> Search.query (Search.searchParams st)) by discriminate.
  assert (H2 : Search.query [("query", "cache")] <> Search.searchQuery st)
    by discriminate.
  split; [exact H1|]. split; [exact H2|].
  exact (X18_url_change_is_overridden 0 url [] st [("query", "cache")]
           eq_refl H1 H2).
Defined.

(** X19.  A page change does not touch the debounce: taking the URL that
    [handlePageChange] pushes leaves the typed text, the pending timer
    (with its due time) and the cleanup as they were.  So when a typed
    query is pending, the page change neither cancels nor delays it: the
    timer fires when it was due and pushes the typed query with offset 0,
    which undoes the page change. *)
Theorem X19_page_change_keeps_timer
    (t0 : nat) (url : URLSearchParams.t)
    (evs : list Search.event) (st : Search.State)
    (t : Search.Timer) (page : Z) :
  Search.run (Search.mount t0 url) evs = Some st ->
  In t (Search.timers st) ->
  Search.searchQuery st <> Search.query (Search.searchParams st) ->
  let href := Search.handlePageChange (Search.searchParams st) page in
  let moved :=
    {| Search.now := Search.now st;
       Search.searchParams := Search.search href;
       Search.searchQuery := Search.searchQuery st;
       Search.timers := Search.timers st;
       Search.nextTimer := Search.nextTimer st;
       Search.cleanup := Search.cleanup st;
       Search.pushed := Search.pushed st |} in
  Search.step st (Search.Navigate (Search.search href)) = Some moved
  /\ exists st' href',
       Search.run moved
         [Search.Elapse (Search.due t - Search.now st);
          Search.Fire (Search.timer_id t)] = Some st'
       /\ Search.pushed st' = href' :: Search.pushed st
       /\ Search.query (Search.search href') = Search.searchQuery st
       /\ Search.offset (Search.search href') = Js.Int 0.
Proof.
  intros Hreach Hin Hdiff href moved.
  pose proof (run_currentTimerOnly _ _ _ (mount_currentTimerOnly t0 url) Hreach)
    as Hinv.
  destruct (Hinv t Hin) as (Hone & _ & Hsq & Hq & _).
  assert (Hquery : Search.query (Search.search href)
                   = Search.query (Search.searchParams st)).
  { unfold Search.query. subst href. unfold Search.handlePageChange.
    cbn [Search.search]. unfold URLSearchParams.copy.
    rewrite get_set_other by discriminate. reflexivity. }
  split.
  { cbn [Search.step]. rewrite Hquery, String.eqb_refl. reflexivity. }
  destruct (Search.timerBody (Search.searchQuery st)
              (Search.query (Search.searchParams st))) as [href'|] eqn:Hbody;
    [|apply timerBody_None in Hbody; contradiction].
  destruct (timerBody_Some _ _ _ Hbody) as (_ & _ & _ & _ & Hq' & Hzero).
  eexists. exists href'. split; [|split; [|split; eassumption]].
  - subst moved. cbn [Search.run Search.step]. unfold Search.findTimer.
    cbn [Search.timers Search.now]. rewrite Hone. cbn [find].
    rewrite Nat.eqb_refl.
    destruct (Nat.leb_spec (Search.due t)
                (Search.now st + (Search.due t - Search.now st)))
      as [_ | Hlt]; [|lia].
    cbn [Search.clearTimeout Search.timers filter Search.pushed
         Search.now Search.searchParams Search.searchQuery
         Search.nextTimer Search.cleanup].
    rewrite Nat.eqb_refl, Hsq, Hq, Hbody. reflexivity.
  - reflexivity.
Qed.

Lemma X19_page_change_keeps_timer_witness :
  let url := [("query", "a"); ("offset", "6")] in
  let t :=
    {| Search.timer_id := 1; Search.due := 600;
       Search.closed_searchQuery := "b"; Search.closed_query := "a" |} in
  let st :=
    {| Search.now := 100; Search.searchParams := url;
       Search.searchQuery := "b"; Search.timers := [t];
       Search.nextTimer := 2; Search.cleanup := Some 1%nat;
       Search.pushed := [] |} in
  Search.run (Search.mount 0 url) [Search.Elapse 100; Search.Change "b"]
  = Some st
  /\ In t (Search.timers st)
  /\ Search.searchQuery st <> Search.query (Search.searchParams st)
  /\ exists st' href',
       Search.run
         {| Search.now := 100;
            Search.searchParams :=
              Search.search (Search.handlePageChange url 3);
            Search.searchQuery := "b"; Search.timers := [t];
            Search.nextTimer := 2; Search.cleanup := Some 1%nat;
            Search.pushed := [] |}
         [Search.Elapse (600 - 100); Search.Fire 1] = Some st'
       /\ Search.pushed st' = href' :: []
       /\ Search.query (Search.search href') = "b"
       /\ Search.offset (Search.search href') = Js.Int 0.
Proof.
  intros url t st.
  assert (H1 : Search.run (Search.mount 0 url)
                 [Search.Elapse 100; Search.Change "b"] = Some st)
    by reflexivity.
  assert (H2 : In t (Search.timers st)) by (left; reflexivity).
  assert (H3 : Search.searchQuery st
               <> Search.query (Search.searchParams st)) by discriminate.
  split; [exact H1|]. split; [exact H2|]. split; [exact H3|].
  exact (proj2 (X19_page_change_keeps_timer 0 url
                  [Search.Elapse 100; Search.Change "b"] st t 3 H1 H2 H3)).
Defined.

(** ** The text of URLs *)

Section UrlTextFacts.

Import UrlText.

Lemma append_assoc (a b c : string) :
  ((a ++ b) ++ c)%string = (a ++ (b ++ c))%string.
Proof.
  induction a as [|x a IH]; [reflexivity|]. cbn [append]. rewrite IH.
  reflexivity.
Qed.

Lemma lacks_app (c : ascii) (a b : string) :
  lacks c (a ++ b) = lacks c a && lacks c b.
Proof.
  induction a as [|c' a IH]; [reflexivity|].
  cbn [append lacks]. rewrite IH, andb_assoc. reflexivity.
Qed.

(** What the form serializer writes for one byte is read back as that
    byte, and holds neither [&] nor [=]. *)
Lemma formChar_read (c : ascii) (rest : string) :
  percentDecode (plusToSpace (formChar c ++ rest))
  = String c (percentDecode (plusToSpace rest)).
Proof. destruct c as [[] [] [] [] [] [] [] []]; reflexivity. Qed.

Lemma formChar_lacks (c : ascii) :
  lacks "&" (formChar c) = true /\ lacks "=" (formChar c) = true
  /\ lacks "#" (formChar c) = true /\ lacks "?" (formChar c) = true.
Proof. destruct c as [[] [] [] [] [] [] [] []]; repeat split; reflexivity. Qed.

(** The same for [encodeURIComponent], which writes no [+] either. *)
Lemma uriChar_read (c : ascii) (rest : string) :
  percentDecode (plusToSpace (uriChar c ++ rest))
  = String c (percentDecode (plusToSpace rest)).
Proof. destruct c as [[] [] [] [] [] [] [] []]; reflexivity. Qed.

Lemma uriChar_lacks (c : ascii) :
  lacks "&" (uriChar c) = true /\ lacks "=" (uriChar c) = true
  /\ lacks "#" (uriChar c) = true /\ lacks "?" (uriChar c) = true
  /\ lacks "+" (uriChar c) = true.
Proof. destruct c as [[] [] [] [] [] [] [] []]; repeat split; reflexivity. Qed.

Lemma formEncode_read (s rest : string) :
  percentDecode (plusToSpace (formEncode s ++ rest))
  = (s ++ percentDecode (plusToSpace rest))%string.
Proof.
  induction s as [|c s IH]; [reflexivity|].
  cbn [formEncode]. rewrite append_assoc, formChar_read, IH.
  reflexivity.
Qed.

Lemma encodeURIComponent_read (s rest : string) :
  percentDecode (plusToSpace (encodeURIComponent s ++ rest))
  = (s ++ percentDecode (plusToSpace rest))%string.
Proof.
  induction s as [|c s IH]; [reflexivity|].
  cbn [encodeURIComponent]. rewrite append_assoc, uriChar_read, IH.
  reflexivity.
Qed.

Lemma append_empty_r (s : string) : (s ++ "")%string = s.
Proof. induction s as [|c s IH]; [reflexivity|]. cbn. rewrite IH. reflexivity. Qed.

Lemma formEncode_read_all (s : string) :
  percentDecode (plusToSpace (formEncode s)) = s.
Proof.
  rewrite <- (append_empty_r (formEncode s)), formEncode_read.
  apply append_empty_r.
Qed.

Lemma encodeURIComponent_read_all (s : string) :
  percentDecode (plusToSpace (encodeURIComponent s)) = s.
Proof.
  rewrite <- (append_empty_r (encodeURIComponent s)), encodeURIComponent_read.
  apply append_empty_r.
Qed.

Lemma formEncode_lacks (s : string) :
  lacks "&" (formEncode s) = true /\ lacks "=" (formEncode s) = true
  /\ lacks "#" (formEncode s) = true /\ lacks "?" (formEncode s) = true.
Proof.
  induction s as [|c s (IH1 & IH2 & IH3 & IH4)];
    [repeat split; reflexivity|].
  cbn [formEncode]. rewrite !lacks_app, IH1, IH2, IH3, IH4.
  destruct (formChar_lacks c) as (-> & -> & -> & ->).
  repeat split; reflexivity.
Qed.

Lemma encodeURIComponent_lacks (s : string) :
  lacks "&" (encodeURIComponent s) = true
  /\ lacks "=" (encodeURIComponent s) = true
  /\ lacks "#" (encodeURIComponent s) = true
  /\ lacks "?" (encodeURIComponent s) = true
  /\ lacks "+" (encodeURIComponent s) = true.
Proof.
  induction s as [|c s (IH1 & IH2 & IH3 & IH4 & IH5)];
    [repeat split; reflexivity|].
  cbn [encodeURIComponent]. rewrite !lacks_app, IH1, IH2, IH3, IH4, IH5.
  destruct (uriChar_lacks c) as (-> & -> & -> & -> & ->).
  repeat split; reflexivity.
Qed.

(** Splitting and cutting text whose first part lacks the separator. *)
Lemma splitOn_whole (sep : ascii) (a : string) :
  lacks sep a = true -> splitOn sep a = [a].
Proof.
  induction a as [|c a IH]; [reflexivity|].
  cbn [lacks splitOn]. intro H. apply andb_true_iff in H.
  destruct H as [Hc Ha]. apply negb_true_iff in Hc.
  rewrite Hc, (IH Ha). reflexivity.
Qed.

Lemma splitOn_first (sep : ascii) (a b : string) :
  lacks sep a = true ->
  splitOn sep (a ++ String sep b) = a :: splitOn sep b.
Proof.
  induction a as [|c a IH]; cbn [append lacks splitOn].
  - intros _. rewrite Ascii.eqb_refl. reflexivity.
  - intro H. apply andb_true_iff in H.
    destruct H as [Hc Ha]. apply negb_true_iff in Hc.
    rewrite Hc, (IH Ha). reflexivity.
Qed.

Lemma cutAt_first (sep : ascii) (a b : string) :
  lacks sep a = true -> cutAt sep (a ++ String sep b) = (a, Some b).
Proof.
  induction a as [|c a IH]; cbn [append lacks cutAt].
  - intros _. rewrite Ascii.eqb_refl. reflexivity.
  - intro H. apply andb_true_iff in H.
    destruct H as [Hc Ha]. apply negb_true_iff in Hc.
    rewrite Hc, (IH Ha). reflexivity.
Qed.

Lemma parsePiece_pair (name value : string) :
  lacks "=" name = true ->
  parsePiece (name ++ String "=" value)
  = [(percentDecode (plusToSpace name), percentDecode (plusToSpace value))].
Proof.
  intro Hname. unfold parsePiece. rewrite (cutAt_first _ _ _ Hname).
  destruct name; reflexivity.
Qed.

Lemma parsePiece_serializePair (kv : string * string) :
  parsePiece (serializePair kv) = [kv].
Proof.
  destruct kv as [n v]. unfold serializePair. cbn [fst snd].
  change (formEncode n ++ "=" ++ formEncode v)%string
    with (formEncode n ++ String "=" (formEncode v))%string.
  rewrite parsePiece_pair by apply formEncode_lacks.
  rewrite !formEncode_read_all. reflexivity.
Qed.

Lemma serializePair_lacks (kv : string * string) :
  lacks "&" (serializePair kv) = true.
Proof.
  destruct kv as [n v]. unfold serializePair. cbn [fst snd].
  rewrite !lacks_app.
  rewrite (proj1 (formEncode_lacks n)), (proj1 (formEncode_lacks v)).
  reflexivity.
Qed.

(** What [toString] writes is read back as it is. *)
Lemma parse_serialize (p : URLSearchParams.t) : parse (serialize p) = p.
Proof.
  unfold parse, serialize.
  induction p as [|kv p IH]; [reflexivity|].
  cbn [map String.concat]. destruct p as [|kv' p].
  - cbn [map]. rewrite splitOn_whole by apply serializePair_lacks.
    cbn [flat_map]. rewrite parsePiece_serializePair. reflexivity.
  - set (tail := String.concat "&" (map serializePair (kv' :: p))) in *.
    cbn [map]. fold tail.
    change (serializePair kv ++ "&" ++ tail)%string
      with (serializePair kv ++ String "&" tail)%string.
    rewrite splitOn_first by apply serializePair_lacks.
    cbn [flat_map]. rewrite parsePiece_serializePair, IH. reflexivity.
Qed.

Lemma serialize_lacks (c : ascii) (p : URLSearchParams.t) :
  (forall s, lacks c (formEncode s) = true) ->
  Ascii.eqb "=" c = false -> Ascii.eqb "&" c = false ->
  lacks c (serialize p) = true.
Proof.
  intros Hform Heq Hamp. unfold serialize.
  assert (Hpair : forall kv, lacks c (serializePair kv) = true).
  { intros [n v]. unfold serializePair. cbn [fst snd].
    rewrite !lacks_app, !Hform. cbn [lacks]. rewrite Heq. reflexivity. }
  induction p as [|kv p IH]; [reflexivity|].
  cbn [map String.concat]. destruct p as [|kv' p]; [apply Hpair|].
  set (tail := String.concat "&" (map serializePair (kv' :: p))) in *.
  cbn [map]. fold tail. rewrite !lacks_app, Hpair. cbn [lacks].
  rewrite Hamp, IH. reflexivity.
Qed.

(** Reading the parameters of a pushed URL. *)
Lemma searchParamsOf_href (path : string) (p : URLSearchParams.t) :
  lacks "?" path = true ->
  searchParamsOf (path ++ "?" ++ serialize p) = p.
Proof.
  intro Hpath. unfold searchParamsOf.
  change (path ++ "?" ++ serialize p)%string
    with (path ++ String "?" (serialize p))%string.
  rewrite (cutAt_first _ _ _ Hpath). cbn [snd]. apply parse_serialize.
Qed.

(** Text without plus and percent signs is read as it is. *)
Lemma plain_read (s : string) :
  plain s = true -> percentDecode (plusToSpace s) = s.
Proof.
  unfold plain. induction s as [|c s IH]; [reflexivity|].
  cbn [lacks plusToSpace]. intro H.
  apply andb_true_iff in H. destruct H as [Hplus Hpct].
  apply andb_true_iff in Hplus. destruct Hplus as [Hc1 Hs1].
  apply andb_true_iff in Hpct. destruct Hpct as [Hc2 Hs2].
  apply negb_true_iff in Hc1. apply negb_true_iff in Hc2.
  rewrite Hc1. cbn [percentDecode]. rewrite Hc2, IH; [reflexivity|].
  rewrite Hs1, Hs2. reflexivity.
Qed.

(** The decimal text of a number holds digits and a minus sign only. *)
Lemma string_of_uint_lacks (c : ascii) (d : Decimal.uint) :
  oneOf "0123456789" c = false ->
  lacks c (NilEmpty.string_of_uint d) = true.
Proof.
  intro Hc. unfold oneOf in Hc. cbn [list_ascii_of_string existsb] in Hc.
  repeat (apply orb_false_iff in Hc; destruct Hc as [? Hc]).
  induction d; cbn [NilEmpty.string_of_uint lacks]; [reflexivity|..];
    rewrite IHd, andb_true_r; apply negb_true_iff;
    rewrite Ascii.eqb_sym; assumption.
Qed.

Lemma toString_lacks (c : ascii) (z : Z) :
  oneOf "-0123456789" c = false -> lacks c (Js.toString z) = true.
Proof.
  intro Hc. unfold oneOf in Hc. cbn [list_ascii_of_string existsb] in Hc.
  apply orb_false_iff in Hc. destruct Hc as [Hminus Hdigit].
  fold (existsb (Ascii.eqb c) (list_ascii_of_string "0123456789")) in Hdigit.
  fold (oneOf "0123456789" c) in Hdigit.
  assert (Hzero : Ascii.eqb "0" c = false).
  { unfold oneOf in Hdigit. cbn [list_ascii_of_string existsb] in Hdigit.
    apply orb_false_iff in Hdigit. rewrite Ascii.eqb_sym. exact (proj1 Hdigit). }
  unfold Js.toString. destruct z as [|p|p]; cbn [Z.to_int NilZero.string_of_int].
  - change (lacks c "0" = true). cbn [lacks]. rewrite Hzero. reflexivity.
  - pose proof (DecimalPos.Unsigned.to_uint_nonnil p) as Hp.
    destruct (Pos.to_uint p) eqn:Hd; [congruence|..];
      rewrite <- Hd; cbn [NilZero.string_of_uint];
      rewrite Hd; apply string_of_uint_lacks; exact Hdigit.
  - pose proof (DecimalPos.Unsigned.to_uint_nonnil p) as Hp.
    cbn [lacks]. rewrite Ascii.eqb_sym, Hminus. cbn [negb andb].
    destruct (Pos.to_uint p) eqn:Hd; [congruence|..];
      rewrite <- Hd; cbn [NilZero.string_of_uint];
      rewrite Hd; apply string_of_uint_lacks; exact Hdigit.
Qed.

Lemma numberText_lacks (c : ascii) (x : Js.number) :
  oneOf "-0123456789Na" c = false -> lacks c (numberText x) = true.
Proof.
  intro Hc. destruct x as [|z]; cbn [numberText].
  - unfold oneOf in Hc. cbn [list_ascii_of_string existsb] in Hc.
    repeat (apply orb_false_iff in Hc; destruct Hc as [? Hc]).
    cbn [lacks].
    repeat match goal with
           | H : Ascii.eqb c ?k = false |- context [Ascii.eqb ?k c] =>
               rewrite (Ascii.eqb_sym k c), H
           end.
    reflexivity.
  - apply toString_lacks. unfold oneOf in *.
    cbn [list_ascii_of_string existsb] in *.
    repeat (apply orb_false_iff in Hc; destruct Hc as [? Hc]).
    repeat (apply orb_false_iff; split; try assumption).
Qed.

End UrlTextFacts.

(** X20.  The text that [params.toString()] writes for a list of
    parameters is read back by the URL parameter parser as the same list,
    names and values intact whatever bytes they hold, and in the same
    order; the text holds no [#] and no [?], so it is the whole query of
    any URL made of a path without [?], a question mark and that text. *)
Theorem X20_parameters_text_round_trip (p : URLSearchParams.t) :
  UrlText.parse (UrlText.serialize p) = p
  /\ UrlText.lacks "#" (UrlText.serialize p) = true
  /\ UrlText.lacks "?" (UrlText.serialize p) = true
  /\ (forall path,
         UrlText.lacks "?" path = true ->
         UrlText.searchParamsOf (path ++ "?" ++ UrlText.serialize p) = p).
Proof.
  split; [apply parse_serialize|]. split; [|split].
  - apply serialize_lacks; [intro s; apply formEncode_lacks | reflexivity ..].
  - apply serialize_lacks; [intro s; apply formEncode_lacks | reflexivity ..].
  - intros path Hpath. apply searchParamsOf_href. exact Hpath.
Qed.

Lemma X20_parameters_text_round_trip_witness :
  UrlText.searchParamsOf
    ("/search" ++ "?"
     ++ UrlText.serialize [("query", "a b&c=d"); ("offset", "6")])
  = [("query", "a b&c=d"); ("offset", "6")].
Proof.
  apply (proj2 (proj2 (proj2
    (X20_parameters_text_round_trip [("query", "a b&c=d"); ("offset", "6")])))).
  reflexivity.
Defined.

(** X21.  The URL texts that the page pushes are read back as the
    parameters it meant: after [handlePageChange(page)], for a page whose
    offset [(page - 1) * 6] is a safe integer, the URL read has that
    offset and the query it had, and after a debounced
    navigation the URL read has the typed text as its query, whatever
    bytes were typed, and offset 0. *)
Theorem X21_pushed_text_reads_back
    (searchParams : URLSearchParams.t) (page : Z)
    (typed inUrl : string) (href : Search.Href) :
  Search.timerBody typed inUrl = Some href ->
  Js.safeInteger ((page - 1) * 6) ->
  let pageHref := Search.handlePageChange searchParams page in
  UrlText.searchParamsOf (UrlText.hrefText pageHref) = Search.search pageHref
  /\ Search.offset (UrlText.searchParamsOf (UrlText.hrefText pageHref))
     = Js.Int ((page - 1) * 6)
  /\ Search.query (UrlText.searchParamsOf (UrlText.hrefText pageHref))
     = Search.query searchParams
  /\ UrlText.searchParamsOf (UrlText.hrefText href) = Search.search href
  /\ Search.query (UrlText.searchParamsOf (UrlText.hrefText href)) = typed
  /\ Search.offset (UrlText.searchParamsOf (UrlText.hrefText href))
     = Js.Int 0.
Proof.
  intros Hbody _ pageHref.
  assert (Hpage : UrlText.searchParamsOf (UrlText.hrefText pageHref)
                  = Search.search pageHref)
    by (apply searchParamsOf_href; reflexivity).
  destruct (timerBody_Some _ _ _ Hbody) as (_ & Hpath & _ & _ & Hquery & Hzero).
  assert (Hhref : UrlText.searchParamsOf (UrlText.hrefText href)
                  = Search.search href)
    by (unfold UrlText.hrefText; rewrite Hpath;
        apply searchParamsOf_href; reflexivity).
  rewrite Hpage, Hhref.
  split; [reflexivity|]. split; [|split].
  - apply offset_of_text. apply get_set_same.
  - unfold Search.query. subst pageHref. unfold Search.handlePageChange.
    cbn [Search.search]. unfold URLSearchParams.copy.
    rewrite get_set_other by discriminate. reflexivity.
  - split; [reflexivity|]. split; assumption.
Qed.

Lemma X21_pushed_text_reads_back_witness :
  let href :=
    {| Search.pathname := "/search";
       Search.search := [("query", "c++ & go"); ("offset", "0")] |} in
  Search.timerBody "c++ & go" "" = Some href
  /\ Js.safeInteger ((1 - 1) * 6)
  /\ UrlText.hrefText href = "/search?query=c%2B%2B+%26+go&offset=0"
  /\ Search.query (UrlText.searchParamsOf (UrlText.hrefText href))
     = "c++ & go".
Proof.
  intro href.
  assert (Hbody : Search.timerBody "c++ & go" "" = Some href) by reflexivity.
  assert (Hsafe : Js.safeInteger ((1 - 1) * 6))
    by (split; vm_compute; discriminate).
  split; [exact Hbody|]. split; [exact Hsafe|]. split; [reflexivity|].
  exact (proj1 (proj2 (proj2 (proj2 (proj2
    (X21_pushed_text_reads_back [] 1 "c++ & go" "" href Hbody Hsafe)))))).
Defined.

(** X22.  Whatever the query holds, and for an offset that is not a
    number or is a safe integer, the URL of the search request has exactly
    three parameters, read back as the query itself, the page size 6 and
    the text of the offset; the URL holds no [#]. *)
Theorem X22_request_url (query : string) (offset : Js.number) :
  Js.safeNumber offset ->
  UrlText.searchParamsOf (UrlText.requestUrl query offset)
  = [("query", query); ("pageSize", "6");
     ("offset", UrlText.numberText offset)]
  /\ UrlText.lacks "#" (UrlText.requestUrl query offset) = true.
Proof.
  intros _. unfold UrlText.requestUrl.
  set (e := UrlText.encodeURIComponent query).
  set (n := UrlText.numberText offset).
  assert (Hn : forall c,
             UrlText.oneOf "-0123456789Na" c = false ->
             UrlText.lacks c n = true)
    by (intros c Hc; apply numberText_lacks; exact Hc).
  destruct (encodeURIComponent_lacks query) as (Hamp & Heq & Hhash & _ & _).
  fold e in Hamp, Heq, Hhash.
  change ("/service/search?query=" ++ e ++ "&pageSize="
          ++ Js.toString Search.PAGE_SIZE ++ "&offset=" ++ n)%string
    with ("/service/search"
          ++ String "?"
               (("query" ++ String "=" e)
                ++ String "&"
                     (("pageSize" ++ String "=" "6")
                      ++ String "&" ("offset" ++ String "=" n))))%string.
  split.
  - unfold UrlText.searchParamsOf.
    rewrite cutAt_first by reflexivity. cbn [snd]. unfold UrlText.parse.
    rewrite splitOn_first
      by (rewrite lacks_app; cbn [UrlText.lacks]; rewrite Hamp; reflexivity).
    rewrite splitOn_first by reflexivity.
    rewrite splitOn_whole
      by (rewrite lacks_app; cbn [UrlText.lacks]; rewrite Hn; reflexivity).
    cbn [flat_map]. rewrite !parsePiece_pair by reflexivity.
    unfold e. rewrite encodeURIComponent_read_all.
    rewrite (plain_read n)
      by (unfold UrlText.plain; rewrite !Hn; reflexivity).
    reflexivity.
  - repeat (rewrite !lacks_app; cbn [UrlText.lacks]).
    rewrite Hhash, Hn by reflexivity. reflexivity.
Qed.

Lemma X22_request_url_witness :
  Js.safeNumber (Js.Int 12)
  /\ UrlText.requestUrl "a&b c" (Js.Int 12)
     = "/service/search?query=a%26b%20c&pageSize=6&offset=12"
  /\ UrlText.searchParamsOf (UrlText.requestUrl "a&b c" (Js.Int 12))
     = [("query", "a&b c"); ("pageSize", "6"); ("offset", "12")].
Proof.
  assert (Hsafe : Js.safeNumber (Js.Int 12))
    by (split; vm_compute; discriminate).
  split; [exact Hsafe|]. split; [reflexivity|].
  exact (proj1 (X22_request_url "a&b c" (Js.Int 12) Hsafe)).
Defined.

(** ** Reading an offset that is not the text of a number *)

Section OffsetText.

Import Js.

Lemma scanDigits_uint_app (d : Decimal.uint) (acc : Z) (rest : string) :
  scanDigits 10 (NilEmpty.string_of_uint d ++ rest) (Some acc)
  = scanDigits 10 rest (Some (uintValue d acc)).
Proof.
  revert acc; induction d; intro acc;
    cbn [NilEmpty.string_of_uint append scanDigits uintValue];
    try reflexivity;
    match goal with
    | |- context [digitValue 10 ?c] =>
        let v := eval vm_compute in (digitValue 10 c) in
        change (digitValue 10 c) with v; cbv iota beta
    end; apply IHd.
Qed.

Lemma scanDigits_uint_start_app (d : Decimal.uint) (rest : string) :
  d <> Decimal.Nil ->
  scanDigits 10 (NilEmpty.string_of_uint d ++ rest) None
  = scanDigits 10 rest (Some (uintValue d 0)).
Proof.
  destruct d; [congruence | ..]; intros _;
    cbn [NilEmpty.string_of_uint append scanDigits uintValue];
    match goal with
    | |- context [digitValue 10 ?c] =>
        let v := eval vm_compute in (digitValue 10 c) in
        change (digitValue 10 c) with v; cbv iota beta
    end; apply scanDigits_uint_app.
Qed.

Lemma scanDigits_stop (c : ascii) (r : string) (acc : option Z) :
  digitValue 10 c = None -> scanDigits 10 (String c r) acc = acc.
Proof. intro Hc. cbn [scanDigits]. rewrite Hc. reflexivity. Qed.

Lemma trimStart_uint_app (d : Decimal.uint) (rest : string) :
  d <> Decimal.Nil ->
  trimStart (NilEmpty.string_of_uint d ++ rest)
  = (NilEmpty.string_of_uint d ++ rest)%string.
Proof. destruct d; [congruence | reflexivity ..]. Qed.

Lemma stripSign_uint_app (d : Decimal.uint) (rest : string) :
  d <> Decimal.Nil ->
  stripSign (NilEmpty.string_of_uint d ++ rest)
  = (1, (NilEmpty.string_of_uint d ++ rest)%string).
Proof. destruct d; [congruence | reflexivity ..]. Qed.

Lemma stripPrefix_zero (c : ascii) (r : string) :
  Ascii.eqb c "x" = false -> Ascii.eqb c "X" = false ->
  stripPrefix (String "0" (String c r)) = (10, String "0" (String c r)).
Proof.
  destruct c as [[] [] [] [] [] [] [] []]; intros Hx HX;
    first [ reflexivity | discriminate Hx | discriminate HX ].
Qed.

Lemma stripPrefix_uint_app (d : Decimal.uint) (c : ascii) (r : string) :
  d <> Decimal.Nil ->
  Ascii.eqb c "x" = false -> Ascii.eqb c "X" = false ->
  stripPrefix (NilEmpty.string_of_uint d ++ String c r)
  = (10, (NilEmpty.string_of_uint d ++ String c r)%string).
Proof.
  intros Hd Hx HX.
  destruct d as [|d|d|d|d|d|d|d|d|d|d]; [congruence | | reflexivity ..].
  destruct d; try reflexivity. apply stripPrefix_zero; assumption.
Qed.

(** Decimal digits followed by text that does not go on as a number. *)
Lemma parseInt_uint_app (d : Decimal.uint) (c : ascii) (r : string) :
  d <> Decimal.Nil -> digitValue 10 c = None ->
  Ascii.eqb c "x" = false -> Ascii.eqb c "X" = false ->
  parseInt (NilEmpty.string_of_uint d ++ String c r) = Int (uintValue d 0)
  /\ parseInt (String "-" (NilEmpty.string_of_uint d ++ String c r))
     = Int (- uintValue d 0).
Proof.
  intros Hd Hc Hx HX. split.
  - unfold parseInt.
    rewrite trimStart_uint_app, stripSign_uint_app by exact Hd.
    rewrite stripPrefix_uint_app by assumption.
    rewrite scanDigits_uint_start_app, scanDigits_stop by assumption.
    f_equal. lia.
  - unfold parseInt.
    change (trimStart (String "-" ?s)) with (String "-" s).
    change (stripSign (String "-" ?s)) with (-1, s).
    cbv iota beta.
    rewrite stripPrefix_uint_app by assumption.
    rewrite scanDigits_uint_start_app, scanDigits_stop by assumption.
    reflexivity.
Qed.

Lemma parseInt_toString_app (z : Z) (c : ascii) (r : string) :
  digitValue 10 c = None ->
  Ascii.eqb c "x" = false -> Ascii.eqb c "X" = false ->
  parseInt (toString z ++ String c r) = Int z.
Proof.
  intros Hc Hx HX. destruct z as [|p|p].
  - change (toString 0) with (NilEmpty.string_of_uint (Decimal.D0 Decimal.Nil)).
    apply (parseInt_uint_app (Decimal.D0 Decimal.Nil)); congruence.
  - unfold toString; cbn [Z.to_int NilZero.string_of_int].
    pose proof (DecimalPos.Unsigned.to_uint_nonnil p) as Hp.
    pose proof (DecimalPos.Unsigned.of_to p) as Hv.
    assert (Hs : NilZero.string_of_uint (Pos.to_uint p)
                 = NilEmpty.string_of_uint (Pos.to_uint p))
      by (destruct (Pos.to_uint p); [congruence | reflexivity ..]).
    rewrite Hs.
    rewrite (proj1 (parseInt_uint_app _ c r Hp Hc Hx HX)),
      uintValue_zero, Hv.
    reflexivity.
  - unfold toString; cbn [Z.to_int NilZero.string_of_int].
    pose proof (DecimalPos.Unsigned.to_uint_nonnil p) as Hp.
    pose proof (DecimalPos.Unsigned.of_to p) as Hv.
    assert (Hs : NilZero.string_of_uint (Pos.to_uint p)
                 = NilEmpty.string_of_uint (Pos.to_uint p))
      by (destruct (Pos.to_uint p); [congruence | reflexivity ..]).
    rewrite Hs. cbn [append].
    rewrite (proj2 (parseInt_uint_app _ c r Hp Hc Hx HX)),
      uintValue_zero, Hv.
    reflexivity.
Qed.

(** Text that starts with neither white space, a sign nor a digit. *)
Lemma parseInt_no_number (c : ascii) (r : string) :
  isWhiteSpace c = false ->
  Ascii.eqb c "+" = false -> Ascii.eqb c "-" = false ->
  digitValue 10 c = None ->
  parseInt (String c r) = NaN.
Proof.
  destruct c as [[] [] [] [] [] [] [] []]; intros Hw Hplus Hminus Hdigit;
    first [ reflexivity
          | discriminate Hw | discriminate Hplus | discriminate Hminus
          | vm_compute in Hdigit; discriminate Hdigit ].
Qed.

End OffsetText.

(** X23.  An [offset] parameter that is the decimal text of a safe
    integer followed by other text is read as that integer, provided the
    text
    that follows starts with a character that is neither a digit nor [x]
    or [X] (after a lone 0 these would make a hexadecimal prefix). *)
Theorem X23_offset_with_trailing_text
    (searchParams : URLSearchParams.t) (z : Z) (c : ascii) (r : string) :
  URLSearchParams.get "offset" searchParams
  = Some (Js.toString z ++ String c r)%string ->
  Js.safeInteger z ->
  Js.digitValue 10 c = None ->
  Ascii.eqb c "x" = false -> Ascii.eqb c "X" = false ->
  Search.offset searchParams = Js.Int z
  /\ Search.currentPage (Search.offset searchParams) = Js.Int (z / 6 + 1).
Proof.
  intros Hget _ Hc Hx HX.
  assert (Hoff : Search.offset searchParams = Js.Int z).
  { unfold Search.offset. rewrite Hget. unfold Js.or_else.
    assert (Htruthy : Js.truthy (Js.toString z ++ String c r) = true).
    { pose proof (truthy_toString z) as Ht.
      destruct (Js.toString z); [discriminate Ht | reflexivity]. }
    rewrite Htruthy. apply parseInt_toString_app; assumption. }
  split; [exact Hoff|]. rewrite Hoff. apply currentPage_Int.
Qed.

Lemma X23_offset_with_trailing_text_witness :
  Js.safeInteger 12
  /\ Search.offset [("offset", "12px")] = Js.Int 12
  /\ Search.currentPage (Search.offset [("offset", "12px")])
     = Js.Int (12 / 6 + 1).
Proof.
  assert (Hsafe : Js.safeInteger 12) by (split; vm_compute; discriminate).
  split; [exact Hsafe|].
  exact (X23_offset_with_trailing_text [("offset", "12px")] 12 "p" "x"
           eq_refl Hsafe eq_refl eq_refl eq_refl).
Defined.

(** X24.  An [offset] parameter whose text starts with an ASCII
    character that is neither white space, a sign nor a digit is read as
    not a number: the page number shown is not a number either and the
    search request is sent with [offset=NaN]; a page change to a page
    whose offset is a safe integer replaces the parameter and mends the
    URL. *)
Theorem X24_offset_not_a_number
    (searchParams : URLSearchParams.t) (c : ascii) (r : string) (page : Z) :
  URLSearchParams.get "offset" searchParams = Some (String c r) ->
  (nat_of_ascii c < 128)%nat ->
  Js.safeInteger ((page - 1) * 6) ->
  Js.isWhiteSpace c = false ->
  Ascii.eqb c "+" = false -> Ascii.eqb c "-" = false ->
  Js.digitValue 10 c = None ->
  Search.offset searchParams = Js.NaN
  /\ Search.currentPage (Search.offset searchParams) = Js.NaN
  /\ UrlText.requestUrl (Search.query searchParams)
       (Search.offset searchParams)
     = ("/service/search?query="
        ++ UrlText.encodeURIComponent (Search.query searchParams)
        ++ "&pageSize=6&offset=NaN")%string
  /\ Search.offset
       (Search.search (Search.handlePageChange searchParams page))
     = Js.Int ((page - 1) * 6).
Proof.
  intros Hget _ _ Hw Hplus Hminus Hdigit.
  assert (Hoff : Search.offset searchParams = Js.NaN).
  { unfold Search.offset. rewrite Hget. cbn [Js.or_else Js.truthy].
    apply parseInt_no_number; assumption. }
  rewrite Hoff. split; [reflexivity|]. split; [reflexivity|].
  split; [reflexivity|].
  apply offset_of_text. apply get_set_same.
Qed.

Lemma X24_offset_not_a_number_witness :
  (nat_of_ascii "a" < 128)%nat
  /\ Js.safeInteger ((1 - 1) * 6)
  /\ Search.offset [("query", "db"); ("offset", "abc")] = Js.NaN
  /\ UrlText.requestUrl "db" Js.NaN
     = "/service/search?query=db&pageSize=6&offset=NaN".
Proof.
  assert (Hascii : (nat_of_ascii "a" < 128)%nat) by (vm_compute; lia).
  assert (Hsafe : Js.safeInteger ((1 - 1) * 6))
    by (split; vm_compute; discriminate).
  destruct (X24_offset_not_a_number [("query", "db"); ("offset", "abc")]
              "a" "bc" 1 eq_refl Hascii Hsafe eq_refl eq_refl eq_refl eq_refl)
    as (Hoff & _ & Hurl & _).
  split; [exact Hascii|]. split; [exact Hsafe|].
  split; [exact Hoff|]. rewrite Hoff in Hurl. exact Hurl.
Defined.
